(** * Booking ledger of the pilates studio application (app.py)

    A shallow embedding of the booking rules of [app.py]: the three tables
    (sessions, reservations, members), the settlement sweep that runs before
    every request, and the request handlers that write: reserve, cancel,
    move, the admin's cancel with refund, session create and delete, member
    create and delete, and the credit adjustment; then the login, the
    queries behind the sessions page, the move page and the admin
    dashboard, and the seed script [seed.py].

    Conventions of the embedding.
    - A table is the list of its rows in rowid order; [Query.get] and
      [.first()] return the first matching row.
    - An ORM object is addressed by its primary key: writing an attribute of
      an object updates the row with that key in the working copy of the
      store, so two Python names bound to the same row (for instance
      [r.session] and [target] in [move]) see each other's writes.
    - [db.session.commit()] flushes the working copy; the table CHECK
      constraints of [Session.__table_args__] are evaluated there.  When one
      fails the database raises, nothing is committed and the stored state
      is the one before the request.
    - Every handler returns the flashed outcome together with the stored
      state after the request.
    - A datetime is a number of microseconds, a date a number of days, a
      time of day a number of microseconds since midnight.  Each call of
      [datetime.now()] is an explicit argument.
    - Names are strings of ASCII characters.
    - [ORDER BY date, time] is a stable insertion sort of the rows.
    - The audit columns [created_at] / [updated_at] are not represented. *)

From Stdlib Require Import ZArith List String Ascii Bool Lia Sorted Permutation.
Import ListNotations.
Open Scope Z_scope.

(** ** Text helpers: [str.strip], [str.lower], [str.split] *)

Module Text.

(** [str.isspace] on one ASCII character: tab, line feed, vertical tab, form
    feed, carriage return, the four separators 28..31 and the space. *)
Definition is_space (c : ascii) : bool :=
  let n := nat_of_ascii c in
  ((9 <=? n)%nat && (n <=? 13)%nat) || ((28 <=? n)%nat && (n <=? 32)%nat).

Definition lower_char (c : ascii) : ascii :=
  let n := nat_of_ascii c in
  if ((65 <=? n)%nat && (n <=? 90)%nat)%bool then ascii_of_nat (n + 32) else c.

(** [s.lower()] *)
Fixpoint lower (s : string) : string :=
  match s with
  | EmptyString => EmptyString
  | String c s' => String (lower_char c) (lower s')
  end.

(** [s.lstrip()] *)
Fixpoint lstrip (s : string) : string :=
  match s with
  | EmptyString => EmptyString
  | String c s' => if is_space c then lstrip s' else s
  end.

(** [s.rstrip()] *)
Fixpoint rstrip (s : string) : string :=
  match s with
  | EmptyString => EmptyString
  | String c s' =>
      match rstrip s' with
      | EmptyString => if is_space c then EmptyString else String c EmptyString
      | t => String c t
      end
  end.

(** [s.strip()] *)
Definition strip (s : string) : string := rstrip (lstrip s).

(** [s.split()]: the maximal runs of non-space characters.  [cur] is the
    word being read, in reverse. *)
Fixpoint split_aux (cur : list ascii) (s : string) : list string :=
  let flush := match cur with
               | [] => []
               | _ => [string_of_list_ascii (rev cur)]
               end in
  match s with
  | EmptyString => flush
  | String c s' =>
      if is_space c then flush ++ split_aux [] s' else split_aux (c :: cur) s'
  end.

Definition split (s : string) : list string := split_aux [] s.

(** [" ".join(ws)] *)
Fixpoint join_space (ws : list string) : string :=
  match ws with
  | [] => EmptyString
  | [w] => w
  | w :: ws' => (w ++ " " ++ join_space ws')%string
  end.

End Text.

(** ** Dates and times *)

Module Clock.

(** Microseconds in a day, and [timedelta(hours=h)] in microseconds. *)
Definition day : Z := 86400000000.
Definition hours (h : Z) : Z := h * 3600000000.

(** [datetime.combine(d, t)] *)
Definition combine (d t : Z) : Z := d * day + t.

(** [now.date()] and [now.time()] *)
Definition date_of (now : Z) : Z := now / day.
Definition time_of (now : Z) : Z := now mod day.


End Clock.

(** ** Models *)

(** [ALLOWED_STATUSES] *)
Inductive status : Type := active | canceled | moved | attended | no_show.

Definition status_eqb (a b : status) : bool :=
  match a, b with
  | active, active | canceled, canceled | moved, moved
  | attended, attended | no_show, no_show => true
  | _, _ => false
  end.

Module Session.
Record t : Type := mk
  { id : Z; date : Z; time : Z; capacity : Z; spots_left : Z;
    notes : option string; completed : bool }.

(** The [is_past] property; [now] is the value of [datetime.now()]. *)
Definition is_past (now : Z) (s : t) : bool :=
  Clock.combine (date s) (time s) <? now.

Definition with_spots_left (v : Z) (s : t) : t :=
  mk (id s) (date s) (time s) (capacity s) v (notes s) (completed s).

Definition with_completed (b : bool) (s : t) : t :=
  mk (id s) (date s) (time s) (capacity s) (spots_left s) (notes s) b.

(** The three CHECK constraints of [__table_args__]. *)
Definition check (s : t) : bool :=
  (0 <=? capacity s) && (0 <=? spots_left s) && (spots_left s <=? capacity s).
End Session.

Module Reservation.
Record t : Type := mk
  { id : Z; user_name : string; session_id : Z; status_of : status }.

(** The [validates('user_name')] hook. *)
Definition normalize_name (value : string) : string := Text.strip value.

Definition with_status (st : status) (r : t) : t :=
  mk (id r) (user_name r) (session_id r) st.
End Reservation.

Module Member.
Record t : Type := mk { id : Z; full_name : string; credits : Z }.

(** [Member.canonical]: trim and collapse runs of white space. *)
Definition canonical (name : string) : string :=
  Text.join_space (Text.split (Text.strip name)).

Definition with_credits (c : Z) (m : t) : t := mk (id m) (full_name m) c.
End Member.

(** The stored state: the three tables. *)
Record store : Type := mkStore
  { sessions : list Session.t;
    reservations : list Reservation.t;
    members : list Member.t }.

Definition empty_store : store := mkStore [] [] [].

(** ** Outcomes

    What a request flashes or aborts with.  Next to each constructor, the
    message of [app.py] or the HTTP error it stands for. *)
Inductive outcome : Type :=
  | Pass              (* before_request returned None *)
  | NotFound          (* get_or_404 aborted *)
  | IntegrityError    (* a CHECK constraint failed at commit *)
  | ServerError       (* attribute access on a missing related row *)
  | Reserved          (* 'Kayit olusturuldu' *)
  | SessionClosed     (* 'Gecmis/bitmis seansa kayit olunamaz.' *)
  | SessionFull       (* 'Bu seans dolu.' *)
  | NoCredits         (* 'Seans hakkiniz kalmamis.' *)
  | AlreadyBooked     (* 'Zaten bu seanstasiniz.' *)
  | Canceled          (* 'Rezervasyon iptal edildi.' *)
  | Unauthorized      (* 'Bu islem icin yetkiniz yok.' *)
  | NotActive         (* 'Bu rezervasyon zaten aktif degil.' *)
  | TooLateToCancel   (* 'Seans baslamaya 24 saatten az kaldigi icin ...' *)
  | SessionPast       (* 'Gecmis seans iptal edilemez.' *)
  | Moved             (* 'Saat degistirildi' *)
  | MoveRefused       (* 'Islem yapilamadi.' *)
  | TargetPast        (* 'Gecmis seansa tasinamaz.' *)
  | TargetFull        (* 'Hedef seans dolu.' *)
  | MovePage          (* GET: the page of candidate sessions *)
  | Refunded          (* 'Rezervasyon iptal edildi. (Iade uygulandi)' *)
  | AlreadyCanceled   (* 'Rezervasyon zaten iptal.' *)
  | SessionAdded      (* 'Seans eklendi.' *)
  | SessionRejected   (* 'Seans eklenemedi.' *)
  | SessionDeleted    (* 'Seans silindi.' *)
  | PastSession       (* 'Gecmis seans silinemez.' *)
  | MemberAdded       (* 'Uye eklendi.' *)
  | NameEmpty         (* 'Isim bos olamaz.' *)
  | DuplicateMember   (* 'Bu isim zaten kayitli.' *)
  | MemberDeleted     (* 'Uye silindi.' *)
  | CreditsUpdated.   (* 'Seans hakki guncellendi.' *)

(** The outcomes of a request that committed its transaction. *)
Definition succeeded (o : outcome) : bool :=
  match o with
  | Reserved | Canceled | Moved | Refunded | SessionAdded | SessionDeleted
  | MemberAdded | MemberDeleted | CreditsUpdated => true
  | _ => false
  end.

(** ** Queries and writes on the working copy *)

Definition update_where {A : Type} (p : A -> bool) (f : A -> A) (l : list A)
  : list A :=
  map (fun x => if p x then f x else x) l.

(** [Session.query.get(sid)] *)
Definition get_session (sid : Z) (w : store) : option Session.t :=
  find (fun s => Session.id s =? sid) (sessions w).

(** [Reservation.query.get(rid)] *)
Definition get_reservation (rid : Z) (w : store) : option Reservation.t :=
  find (fun r => Reservation.id r =? rid) (reservations w).

(** [Member.query.get(mid)] *)
Definition get_member (mid : Z) (w : store) : option Member.t :=
  find (fun m => Member.id m =? mid) (members w).

(** [Member.query.filter(func.lower(Member.full_name) == name.lower()).first()] *)
Definition name_matches (name : string) (m : Member.t) : bool :=
  String.eqb (Text.lower (Member.full_name m)) (Text.lower name).

Definition find_member (name : string) (w : store) : option Member.t :=
  find (name_matches name) (members w).

(** [Reservation.query.filter_by(user_name=.., session_id=.., status='active').first()] *)
Definition is_active_booking (name : string) (sid : Z) (r : Reservation.t)
  : bool :=
  String.eqb (Reservation.user_name r) name
  && (Reservation.session_id r =? sid)
  && status_eqb (Reservation.status_of r) active.

Definition existing_booking (name : string) (sid : Z) (w : store)
  : option Reservation.t :=
  find (is_active_booking name sid) (reservations w).

(** [s.reservations]: the rows of the relationship. *)
Definition reservations_of (sid : Z) (w : store) : list Reservation.t :=
  filter (fun r => Reservation.session_id r =? sid) (reservations w).

(** The key an INSERT gives a new row: one more than the largest one. *)
Definition next_id (ids : list Z) : Z := fold_right Z.max 0 ids + 1.

Definition upd_session (sid : Z) (f : Session.t -> Session.t) (w : store)
  : store :=
  mkStore (update_where (fun s => Session.id s =? sid) f (sessions w))
          (reservations w) (members w).

Definition upd_reservation (rid : Z) (f : Reservation.t -> Reservation.t)
  (w : store) : store :=
  mkStore (sessions w)
          (update_where (fun r => Reservation.id r =? rid) f (reservations w))
          (members w).

Definition upd_member (mid : Z) (f : Member.t -> Member.t) (w : store)
  : store :=
  mkStore (sessions w) (reservations w)
          (update_where (fun m => Member.id m =? mid) f (members w)).

(** [x.spots_left += d] on the session with key [sid] *)
Definition adjust_spots (sid d : Z) : store -> store :=
  upd_session sid (fun s => Session.with_spots_left (Session.spots_left s + d) s).

(** [x.completed = True] *)
Definition set_completed (sid : Z) : store -> store :=
  upd_session sid (Session.with_completed true).

(** [r.status = st] *)
Definition set_status (rid : Z) (st : status) : store -> store :=
  upd_reservation rid (Reservation.with_status st).

(** [m.credits += d] *)
Definition adjust_credits (mid d : Z) : store -> store :=
  upd_member mid (fun m => Member.with_credits (Member.credits m + d) m).

(** [db.session.add(Reservation(user_name=.., session_id=.., status=..))] *)
Definition add_reservation (name : string) (sid : Z) (st : status) (w : store)
  : store :=
  mkStore (sessions w)
          (reservations w ++
             [Reservation.mk (next_id (map Reservation.id (reservations w)))
                (Reservation.normalize_name name) sid st])
          (members w).

(** [db.session.add(Session(date=.., time=.., capacity=.., spots_left=.., notes=..))];
    [completed] takes its default. *)
Definition add_session (d t cap spots : Z) (note : option string) (w : store)
  : store :=
  mkStore (sessions w ++
             [Session.mk (next_id (map Session.id (sessions w)))
                d t cap spots note false])
          (reservations w) (members w).

(** [db.session.add(Member(full_name=.., credits=..))] *)
Definition add_member (name : string) (c : Z) (w : store) : store :=
  mkStore (sessions w) (reservations w)
          (members w ++
             [Member.mk (next_id (map Member.id (members w))) name c]).

(** [db.session.delete(s)] on the session with key [sid]; the relationship
    cascades to the reservations of the session. *)
Definition delete_session (sid : Z) (w : store) : store :=
  mkStore (filter (fun s => negb (Session.id s =? sid)) (sessions w))
          (filter (fun r => negb (Reservation.session_id r =? sid))
             (reservations w))
          (members w).

(** [db.session.delete(m)] on the member with key [mid] *)
Definition delete_member (mid : Z) (w : store) : store :=
  mkStore (sessions w) (reservations w)
          (filter (fun m => negb (Member.id m =? mid)) (members w)).

(** The CHECK constraints of the sessions table. *)
Definition constraints_ok (w : store) : bool :=
  forallb Session.check (sessions w).

(** [db.session.commit()]: [db] is the stored state, [w] the working copy and
    [ok] what the handler flashes after a commit that went through.  The
    rows a request did not write are rows of [db]. *)
Definition commit (db w : store) (ok : outcome) : outcome * store :=
  if constraints_ok w then (ok, w) else (IntegrityError, db).

(** ** The settlement sweep ([before_request]) *)

(** The filter of the [to_close] query. *)
Definition due (now : Z) (s : Session.t) : bool :=
  negb (Session.completed s)
  && ((Session.date s <? Clock.date_of now)
      || ((Session.date s =? Clock.date_of now)
          && (Session.time s <? Clock.time_of now))).

Definition to_close (now : Z) (db : store) : list Session.t :=
  filter (due now) (sessions db).

(** The body of [for r in s.reservations]. *)
Definition settle_reservation (w : store) (r : Reservation.t) : store :=
  if status_eqb (Reservation.status_of r) active then
    let w1 := set_status (Reservation.id r) attended w in
    match find_member (Reservation.user_name r) w1 with
    | Some m =>
        if 0 <? Member.credits m then adjust_credits (Member.id m) (-1) w1
        else w1
    | None => w1
    end
  else w.

(** The body of [for s in to_close]. *)
Definition close_session (w : store) (s : Session.t) : store :=
  let w1 := set_completed (Session.id s) w in
  fold_left settle_reservation (reservations_of (Session.id s) w1) w1.

Definition close_past_sessions_and_apply_attendance (now : Z) (db : store)
  : outcome * store :=
  match to_close now db with
  | [] => (Pass, db)
  | cs => commit db (fold_left close_session cs db) Pass
  end.

(** The stored state after the sweep. *)
Definition sweep (now : Z) (db : store) : store :=
  snd (close_past_sessions_and_apply_attendance now db).

(** ** User requests *)

(** [reserve(session_id)]; [user] is [flask_session['user_name']]. *)
Definition reserve (now : Z) (user : string) (session_id : Z) (db : store)
  : outcome * store :=
  match get_session session_id db with
  | None => (NotFound, db)
  | Some s =>
      if Session.completed s || Session.is_past now s then (SessionClosed, db)
      else if Session.spots_left s <=? 0 then (SessionFull, db)
      else
        match find_member user db with
        | None => (NoCredits, db)
        | Some member =>
            if Member.credits member <=? 0 then (NoCredits, db)
            else
              match existing_booking user session_id db with
              | Some _ => (AlreadyBooked, db)
              | None =>
                  let w1 := add_reservation user session_id active db in
                  let w2 := adjust_spots (Session.id s) (-1) w1 in
                  commit db w2 Reserved
              end
        end
  end.

(** [cancel(reservation_id)]; [now] is read by the 24 hour test and
    [now'] by [is_past]. *)
Definition cancel (now now' : Z) (user : string) (reservation_id : Z)
  (db : store) : outcome * store :=
  match get_reservation reservation_id db with
  | None => (NotFound, db)
  | Some r =>
      if negb (String.eqb (Reservation.user_name r) user) then (Unauthorized, db)
      else if negb (status_eqb (Reservation.status_of r) active)
      then (NotActive, db)
      else
        match get_session (Reservation.session_id r) db with
        | None => (ServerError, db)
        | Some s =>
            let session_dt := Clock.combine (Session.date s) (Session.time s) in
            if session_dt - now <? Clock.hours 24 then (TooLateToCancel, db)
            else if Session.is_past now' s then (SessionPast, db)
            else
              let w1 := set_status (Reservation.id r) canceled db in
              let w2 := adjust_spots (Session.id s) 1 w1 in
              commit db w2 Canceled
        end
  end.

(** The two methods of the move route. *)
Inductive move_method : Type :=
  | GET
  | POST (target_id : Z).

(** [move(reservation_id)] *)
Definition move (now : Z) (user : string) (reservation_id : Z)
  (method : move_method) (db : store) : outcome * store :=
  match get_reservation reservation_id db with
  | None => (NotFound, db)
  | Some r =>
      if negb (String.eqb (Reservation.user_name r) user)
         || negb (status_eqb (Reservation.status_of r) active)
      then (MoveRefused, db)
      else
        match method with
        | GET => (MovePage, db)
        | POST target_id =>
            match get_session target_id db with
            | None => (NotFound, db)
            | Some target =>
                if Session.is_past now target then (TargetPast, db)
                else if Session.spots_left target <=? 0 then (TargetFull, db)
                else
                  let w1 := set_status (Reservation.id r) moved db in
                  match get_session (Reservation.session_id r) w1 with
                  | None => (ServerError, db)
                  | Some src =>
                      let w2 := adjust_spots (Session.id src) 1 w1 in
                      let w3 := add_reservation (Reservation.user_name r)
                                  (Session.id target) active w2 in
                      let w4 := adjust_spots (Session.id target) (-1) w3 in
                      commit db w4 Moved
                  end
            end
        end
  end.

(** ** Admin requests *)

(** [admin_cancel_reservation_refund(reservation_id)] *)
Definition admin_cancel_reservation_refund (reservation_id : Z) (db : store)
  : outcome * store :=
  match get_reservation reservation_id db with
  | None => (NotFound, db)
  | Some r =>
      if status_eqb (Reservation.status_of r) canceled then (AlreadyCanceled, db)
      else
        let m := find_member (Reservation.user_name r) db in
        let w1 :=
          match m with
          | Some m' =>
              if status_eqb (Reservation.status_of r) attended
              then adjust_credits (Member.id m') 1 db
              else db
          | None => db
          end in
        let finish (w2 : store) :=
          commit db (set_status (Reservation.id r) canceled w2) Refunded in
        if status_eqb (Reservation.status_of r) active then
          match get_session (Reservation.session_id r) w1 with
          | None => (ServerError, db)
          | Some s =>
              if negb (Session.completed s)
              then finish (adjust_spots (Session.id s) 1 w1)
              else finish w1
          end
        else finish w1
  end.

(** The POST branch of [admin_sessions], after the form fields were parsed;
    [notes] is [request.form.get('notes')]. *)
Definition admin_sessions (d t cap : Z) (notes : option string) (db : store)
  : outcome * store :=
  let notes' := match notes with
                | Some EmptyString => None
                | n => n
                end in
  match commit db (add_session d t cap cap notes' db) SessionAdded with
  | (IntegrityError, _) => (SessionRejected, db)
  | res => res
  end.

(** The body of [for r in s.reservations] in [admin_delete_session]. *)
Definition refund_reservation (w : store) (r : Reservation.t) : store :=
  let w1 :=
    match find_member (Reservation.user_name r) w with
    | Some m =>
        if status_eqb (Reservation.status_of r) attended
        then adjust_credits (Member.id m) 1 w
        else w
    | None => w
    end in
  set_status (Reservation.id r) canceled w1.

(** [admin_delete_session(session_id)]: the refunds are committed first,
    the deletion after. *)
Definition admin_delete_session (now : Z) (session_id : Z) (db : store)
  : outcome * store :=
  match get_session session_id db with
  | None => (NotFound, db)
  | Some s =>
      if Session.is_past now s then (PastSession, db)
      else
        let w := fold_left refund_reservation
                   (reservations_of (Session.id s) db) db in
        match commit db w SessionDeleted with
        | (SessionDeleted, db1) =>
            commit db1 (delete_session (Session.id s) db1) SessionDeleted
        | res => res
        end
  end.

(** The POST branch of [admin_members]. *)
Definition admin_members (full_name : string) (credits : Z) (db : store)
  : outcome * store :=
  let name := Text.strip full_name in
  if String.eqb name EmptyString then (NameEmpty, db)
  else
    let canon := Member.canonical name in
    match find_member canon db with
    | Some _ => (DuplicateMember, db)
    | None => commit db (add_member canon (Z.max 0 credits) db) MemberAdded
    end.

(** [admin_members_delete(member_id)] *)
Definition admin_members_delete (member_id : Z) (db : store)
  : outcome * store :=
  match get_member member_id db with
  | None => (NotFound, db)
  | Some m => commit db (delete_member (Member.id m) db) MemberDeleted
  end.

(** [admin_members_adjust_credits(member_id)]; [delta] is the form field. *)
Definition admin_members_adjust_credits (member_id delta : Z) (db : store)
  : outcome * store :=
  match get_member member_id db with
  | None => (NotFound, db)
  | Some m =>
      commit db
        (upd_member (Member.id m)
           (fun x => Member.with_credits (Z.max 0 (Member.credits x + delta)) x)
           db)
        CreditsUpdated
  end.

(** ** Requests as the application serves them

    Every route runs the sweep first; the handler sees the state the sweep
    stored.  [now0] is the clock reading of the sweep. *)
Definition served (now0 : Z) (handler : store -> outcome * store) (db : store)
  : outcome * store :=
  match close_past_sessions_and_apply_attendance now0 db with
  | (Pass, db1) => handler db1
  | res => res
  end.

Inductive request : Type :=
  | ReqReserve (now : Z) (user : string) (session_id : Z)
  | ReqCancel (now now' : Z) (user : string) (reservation_id : Z)
  | ReqMove (now : Z) (user : string) (reservation_id : Z) (method : move_method)
  | ReqAdminCancelRefund (reservation_id : Z)
  | ReqAdminSessions (d t cap : Z) (notes : option string)
  | ReqAdminDeleteSession (now : Z) (session_id : Z)
  | ReqAdminMembers (full_name : string) (credits : Z)
  | ReqAdminMembersDelete (member_id : Z)
  | ReqAdminMembersAdjustCredits (member_id delta : Z).

Definition handle (q : request) : store -> outcome * store :=
  match q with
  | ReqReserve now user sid => reserve now user sid
  | ReqCancel now now' user rid => cancel now now' user rid
  | ReqMove now user rid method => move now user rid method
  | ReqAdminCancelRefund rid => admin_cancel_reservation_refund rid
  | ReqAdminSessions d t cap notes => admin_sessions d t cap notes
  | ReqAdminDeleteSession now sid => admin_delete_session now sid
  | ReqAdminMembers name credits => admin_members name credits
  | ReqAdminMembersDelete mid => admin_members_delete mid
  | ReqAdminMembersAdjustCredits mid delta =>
      admin_members_adjust_credits mid delta
  end.

(** One request: the clock reading of its sweep and the request itself. *)
Definition step (db : store) (e : Z * request) : store :=
  snd (served (fst e) (handle (snd e)) db).

Definition run (trace : list (Z * request)) (db : store) : store :=
  fold_left step trace db.

(** The states the application can be in, starting from empty tables. *)
Definition reachable (db : store) : Prop :=
  exists trace, run trace empty_store = db.

(** ** Vocabulary of the properties *)

(** What the CHECK constraints say of the rows of the sessions table. *)
Definition within_bounds (db : store) : Prop :=
  forall s, In s (sessions db) ->
            0 <= Session.spots_left s <= Session.capacity s.

(** The number of free places of the session with key [sid]. *)
Definition spots (sid : Z) (db : store) : option Z :=
  option_map Session.spots_left (get_session sid db).

(** What the database guarantees of every state it holds: the CHECK
    constraints of the sessions table and the primary keys of the three
    tables. *)
Definition stored (db : store) : Prop :=
  constraints_ok db = true
  /\ NoDup (map Session.id (sessions db))
  /\ NoDup (map Reservation.id (reservations db))
  /\ NoDup (map Member.id (members db)).

(** The working copy [w'] has the rows of [w], under the same keys and in
    the same order. *)
Definition same_keys (w w' : store) : Prop :=
  map Session.id (sessions w') = map Session.id (sessions w)
  /\ map Reservation.id (reservations w') = map Reservation.id (reservations w)
  /\ map Member.id (members w') = map Member.id (members w).


(** The key of the reservation a committed reserve or move creates. *)
Definition new_reservation_id (db : store) : Z :=
  next_id (map Reservation.id (reservations db)).

(** The rule violations a member can run into. *)
Definition domain_violation (o : outcome) : bool :=
  match o with
  | SessionClosed | SessionFull | NoCredits | AlreadyBooked
  | TooLateToCancel | SessionPast | TargetPast | TargetFull
  | Unauthorized | NotActive | MoveRefused => true
  | _ => false
  end.

(** Some element of [rs] that passes [c] has key [k]. *)
Definition hits {B : Type} (c : B -> bool) (kb : B -> Z) (rs : list B) (k : Z)
  : bool :=
  existsb (fun r => c r && (k =? kb r)) rs.

(** What one turn of the inner loop does to the reservations table. *)
Definition res_step (l : list Reservation.t) (r : Reservation.t)
  : list Reservation.t :=
  if status_eqb (Reservation.status_of r) active
  then update_where (fun x => Reservation.id x =? Reservation.id r)
         (Reservation.with_status attended) l
  else l.

(** The debit of one attendance: the member found by the case-insensitive
    name match loses one credit when it has any. *)
Definition debit (name : string) (ms : list Member.t) : list Member.t :=
  match find (name_matches name) ms with
  | Some m =>
      if 0 <? Member.credits m
      then map (fun x => if Member.id x =? Member.id m
                         then Member.with_credits (Member.credits x - 1) x
                         else x) ms
      else ms
  | None => ms
  end.

(** What one turn of the inner loop does to the members table. *)
Definition mem_step (ms : list Member.t) (r : Reservation.t) : list Member.t :=
  if status_eqb (Reservation.status_of r) active
  then debit (Reservation.user_name r) ms
  else ms.

(** [r.status == 'active'] *)
Definition is_active (r : Reservation.t) : bool :=
  status_eqb (Reservation.status_of r) active.

(** The sweep closes the session with key [sid]. *)
Definition closes (ss : list Session.t) (sid : Z) : bool :=
  existsb (fun s => Session.id s =? sid) ss.

(** A reservation after the sweep closed the sessions [ss]. *)
Definition attend (ss : list Session.t) (r : Reservation.t) : Reservation.t :=
  if is_active r && closes ss (Reservation.session_id r)
  then Reservation.with_status attended r else r.

(** The names on the active reservations of one session, in table order. *)
Definition attendees (rs : list Reservation.t) (s : Session.t) : list string :=
  map Reservation.user_name
    (filter is_active
       (filter (fun r => Reservation.session_id r =? Session.id s) rs)).

(** The state the description of the sweep gives: every due session is
    completed, every active reservation of a due session is attended, and
    each of these attendances is debited, session by session. *)
Definition settled (now : Z) (db : store) : store :=
  mkStore
    (map (fun s => if due now s then Session.with_completed true s else s)
       (sessions db))
    (map (attend (to_close now db)) (reservations db))
    (fold_left (fun ms name => debit name ms)
       (flat_map (attendees (reservations db)) (to_close now db))
       (members db)).

(** The active reservations member [name] holds on session [sid]. *)
Definition active_bookings (name : string) (sid : Z) (db : store)
  : list Reservation.t :=
  filter (is_active_booking name sid) (reservations db).

(** A studio: a member with five credits and one with none, two sessions
    of six places on day 10 at 10:00 and 18:00, and one without places. *)
Definition studio_trace : list (Z * request) :=
  [ (0, ReqAdminMembers "Ada Lovelace" 5);
    (0, ReqAdminMembers "Grace Hopper" 0);
    (0, ReqAdminSessions 10 36000000000 6 (Some "Mat"%string));
    (0, ReqAdminSessions 10 64800000000 6 (Some "Reformer"%string));
    (0, ReqAdminSessions 10 72000000000 0 None) ].

Definition studio_state : store := run studio_trace empty_store.

(** The studio after the first member reserved the two sessions. *)
Definition double_trace : list (Z * request) :=
  studio_trace
  ++ [ (0, ReqReserve 0 "Ada Lovelace" 1);
       (0, ReqReserve 0 "Ada Lovelace" 2) ].

Definition double_state : store := run double_trace empty_store.

(** A clock reading on day 20, and the studio swept at that time. *)
Definition late : Z := 20 * Clock.day.

Definition swept_state : store := sweep late double_state.

(** An active reservation on the session with key [sid]. *)
Definition on_session (sid : Z) (r : Reservation.t) : bool :=
  is_active r && (Reservation.session_id r =? sid).

(** The number of active reservations on the session with key [sid]. *)
Definition booked (sid : Z) (db : store) : Z :=
  Z.of_nat (List.length (filter (on_session sid) (reservations db))).

(** Seat accounting: every reservation names a session of the table, and
    the places a session has left and its active reservations add up to at
    most its capacity. *)
Definition accounted (db : store) : Prop :=
  (forall r, In r (reservations db) ->
             In (Reservation.session_id r) (map Session.id (sessions db)))
  /\ (forall s, In s (sessions db) ->
                Session.spots_left s + booked (Session.id s) db
                <= Session.capacity s).

(** The number of elements of [l] that pass [p]. *)
Definition cnt {A : Type} (p : A -> bool) (l : list A) : Z :=
  Z.of_nat (List.length (filter p l)).

(** One when [b] holds, zero otherwise. *)
Definition ind (b : bool) : Z := if b then 1 else 0.

(** ** Vocabulary of the further properties *)

(** The string does not start with white space. *)
Definition head_ok (s : string) : bool :=
  match s with
  | EmptyString => true
  | String c _ => negb (Text.is_space c)
  end.

(** The string does not end with white space. *)
Fixpoint last_ok (s : string) : bool :=
  match s with
  | EmptyString => true
  | String c EmptyString => negb (Text.is_space c)
  | String _ s' => last_ok s'
  end.

(** No character of the string is white space. *)
Fixpoint no_space (s : string) : bool :=
  match s with
  | EmptyString => true
  | String c s' => negb (Text.is_space c) && no_space s'
  end.

(** A word as [str.split] returns them: not empty, without white space. *)
Definition is_word (w : string) : bool :=
  negb (String.eqb w EmptyString) && no_space w.



(** The status changes the handlers make: an active reservation becomes
    attended, canceled or moved; any reservation may be canceled; nothing
    else changes. *)
Definition may_become (a b : status) : bool :=
  match a, b with
  | active, no_show => false
  | active, _ => true
  | _, canceled => true
  | attended, attended | moved, moved | no_show, no_show => true
  | _, _ => false
  end.

(** The two rows are the same booking: key, member name and session. *)
Definition same_booking (r r' : Reservation.t) : Prop :=
  Reservation.id r' = Reservation.id r
  /\ Reservation.user_name r' = Reservation.user_name r
  /\ Reservation.session_id r' = Reservation.session_id r.

(** From [db] to [db'] every reservation that is kept is the same booking
    with a status it may take, and every new one is active. *)
Definition evolves (db db' : store) : Prop :=
  forall k r',
    get_reservation k db' = Some r' ->
    match get_reservation k db with
    | Some r =>
        same_booking r r'
        /\ may_become (Reservation.status_of r) (Reservation.status_of r') = true
    | None => Reservation.status_of r' = active
    end.

(** The refund of one attendance: the member found by the case-insensitive
    name match gets one credit. *)
Definition credit (name : string) (ms : list Member.t) : list Member.t :=
  match find (name_matches name) ms with
  | Some m =>
      map (fun x => if Member.id x =? Member.id m
                    then Member.with_credits (Member.credits x + 1) x
                    else x) ms
  | None => ms
  end.

(** The names on the attended reservations of the session with key [sid],
    in table order. *)
Definition attended_names (sid : Z) (db : store) : list string :=
  map Reservation.user_name
    (filter (fun r => status_eqb (Reservation.status_of r) attended)
       (reservations_of sid db)).

(** The studio of the double booking, one request after the sweep of day
    20. *)
Definition swept_trace : list (Z * request) :=
  double_trace ++ [ (late, ReqAdminMembers EmptyString 0) ].

(** ** The session cookie and the login route *)

(** [flask_session]: the name of the logged-in member and the admin flag. *)
Module FlaskSession.
Record t : Type := mk { user_name : option string; is_admin : bool }.
End FlaskSession.



(** ** The life of a session *)

(** [s'] is the session [s] with the fields no route writes. *)
Definition same_slot (s s' : Session.t) : Prop :=
  Session.id s' = Session.id s
  /\ Session.date s' = Session.date s
  /\ Session.time s' = Session.time s
  /\ Session.capacity s' = Session.capacity s
  /\ Session.notes s' = Session.notes s.

(** From [db] to [db'] a session that is kept keeps its slot, gains or
    loses at most [n] places and is not reopened; a session that appears is
    open with every place free. *)
Definition advances (n : Z) (db db' : store) : Prop :=
  forall k s', get_session k db' = Some s' ->
    match get_session k db with
    | Some s =>
        same_slot s s'
        /\ Z.abs (Session.spots_left s' - Session.spots_left s) <= n
        /\ (Session.completed s = true -> Session.completed s' = true)
    | None =>
        Session.completed s' = false
        /\ Session.spots_left s' = Session.capacity s'
    end.


(** ** The pages *)

(** [order_by(Session.date.asc(), Session.time.asc())]: [a] is listed no
    later than [b]. *)
Definition starts_before (a b : Session.t) : bool :=
  (Session.date a <? Session.date b)
  || ((Session.date a =? Session.date b)
      && (Session.time a <=? Session.time b)).

Fixpoint insert_by_start (s : Session.t) (l : list Session.t)
  : list Session.t :=
  match l with
  | [] => [s]
  | x :: l' =>
      if starts_before s x then s :: l else x :: insert_by_start s l'
  end.

Definition order_by_start (l : list Session.t) : list Session.t :=
  fold_right insert_by_start [] l.

(** The [upcoming] query of [list_sessions] and [user_dashboard];
    [today] is [date.today()]. *)
Definition list_sessions (today : Z) (db : store) : list Session.t :=
  order_by_start (filter (fun s => today <=? Session.date s) (sessions db)).

(** The [candidates] query of the GET branch of [move], for the
    reservation [r]. *)
Definition candidates (today : Z) (r : Reservation.t) (db : store)
  : list Session.t :=
  order_by_start
    (filter (fun s => 0 <? Session.spots_left s)
       (filter (fun s => negb (Session.id s =? Reservation.session_id r))
          (filter (fun s => today <=? Session.date s) (sessions db)))).

(** [func.sum(..).scalar() or 0] *)
Definition sum_of {A : Type} (f : A -> Z) (l : list A) : Z :=
  fold_right (fun x acc => f x + acc) 0 l.

(** The figures of [admin_dashboard]. *)
Module Dashboard.
Record t : Type := mk {
  total_sessions : Z;
  upcoming : Z;
  active_res : Z;
  today_fill : Z;
  today_cap : Z
}.
End Dashboard.

Definition admin_dashboard (today : Z) (db : store) : Dashboard.t :=
  let on_today := filter (fun s => Session.date s =? today) (sessions db) in
  Dashboard.mk
    (Z.of_nat (List.length (sessions db)))
    (Z.of_nat (List.length
                 (filter (fun s => today <=? Session.date s) (sessions db))))
    (Z.of_nat (List.length
                 (filter (fun r => status_eqb (Reservation.status_of r) active)
                    (reservations db))))
    (sum_of (fun s => Session.capacity s - Session.spots_left s) on_today)
    (sum_of Session.capacity on_today).

(** ** The seed script ([seed.py]) *)

(** The three demo sessions are added in one transaction; [today] is
    [date.today()].  The script does not catch a failed commit: [None] is
    the exception, with nothing stored. *)
Definition seed (today : Z) (db : store) : option store :=
  let w1 := add_session today (Clock.hours 10) 6 6 (Some "Mat"%string) db in
  let w2 := add_session today (Clock.hours 18) 6 6 (Some "Reformer"%string)
              w1 in
  let w3 := add_session (today + 1) (Clock.hours 10) 8 8 (Some "Mat"%string)
              w2 in
  match commit db w3 Pass with
  | (Pass, db') => Some db'
  | _ => None
  end.

(** * Lemmas *)

(** ** Tactics and list facts shared by the proofs *)

Ltac break_match :=
  match goal with
  | |- context [match ?x with _ => _ end] => destruct x eqn:?
  | H : context [match ?x with _ => _ end] |- _ => destruct x eqn:?
  end.

Ltac inv H := inversion H; subst; clear H.

Ltac split_ands := repeat match goal with |- _ /\ _ => split end.

Lemma in_update_where {A : Type} (p : A -> bool) (f : A -> A) (l : list A) y :
  In y (update_where p f l) ->
  exists x, In x l /\ (y = x \/ (p x = true /\ y = f x)).
Proof.
  unfold update_where. rewrite in_map_iff. intros (x & Hx & Hin).
  exists x. split; [assumption|].
  destruct (p x); [right; split; congruence | left; congruence].
Qed.

(** Looking a key up after rewriting the rows of key [k] with a function
    that keeps keys. *)
Lemma find_key_update {A : Type} (key : A -> Z) (f : A -> A) (k k' : Z)
  (l : list A) :
  (forall x, key (f x) = key x) ->
  find (fun x => key x =? k') (update_where (fun x => key x =? k) f l)
  = if k' =? k then option_map f (find (fun x => key x =? k') l)
    else find (fun x => key x =? k') l.
Proof.
  intros Hf. induction l as [|a l IH]; simpl.
  - destruct (k' =? k); reflexivity.
  - destruct (key a =? k) eqn:Ek.
    + rewrite Hf. destruct (key a =? k') eqn:Ek'.
      * apply Z.eqb_eq in Ek, Ek'. subst.
        rewrite Z.eqb_refl. reflexivity.
      * exact IH.
    + destruct (key a =? k') eqn:Ek'.
      * apply Z.eqb_eq in Ek'. subst k'. rewrite Ek. reflexivity.
      * exact IH.
Qed.

Lemma find_app_fresh {A : Type} (p : A -> bool) (l : list A) (x : A) :
  find p l = None -> find p (l ++ [x]) = if p x then Some x else None.
Proof.
  induction l as [|a l IH]; simpl; intros H.
  - reflexivity.
  - destruct (p a); [discriminate | auto].
Qed.

Lemma find_app_found {A : Type} (p : A -> bool) (l l' : list A) (y : A) :
  find p l = Some y -> find p (l ++ l') = Some y.
Proof.
  induction l as [|a l IH]; simpl; intros H.
  - discriminate.
  - destruct (p a); auto.
Qed.

Lemma fold_max_ge (ids : list Z) (k : Z) :
  In k ids -> k <= fold_right Z.max 0 ids.
Proof.
  induction ids as [|a ids IH]; simpl; intros H.
  - contradiction.
  - destruct H as [->|H]; [lia | specialize (IH H); lia].
Qed.

Lemma next_id_fresh (ids : list Z) : ~ In (next_id ids) ids.
Proof.
  unfold next_id. intros H. apply fold_max_ge in H. lia.
Qed.

Lemma find_key_none {A : Type} (key : A -> Z) (k : Z) (l : list A) :
  ~ In k (map key l) -> find (fun x => key x =? k) l = None.
Proof.
  induction l as [|a l IH]; simpl; intros H.
  - reflexivity.
  - destruct (key a =? k) eqn:E.
    + apply Z.eqb_eq in E. exfalso. apply H. left. exact E.
    + apply IH. intros Hin. apply H. right. exact Hin.
Qed.

Lemma nodup_map_filter {A : Type} (key : A -> Z) (p : A -> bool) (l : list A) :
  NoDup (map key l) -> NoDup (map key (filter p l)).
Proof.
  induction l as [|a l IH]; simpl; intros H.
  - constructor.
  - inv H. destruct (p a); simpl; auto.
    constructor; auto.
    intros Hin. apply H2. apply in_map_iff in Hin as (x & Hx & Hf).
    apply filter_In in Hf as [Hf _]. rewrite <- Hx. apply in_map. exact Hf.
Qed.

(** ** Bounds *)

Lemma constraints_ok_bounds (w : store) :
  constraints_ok w = true -> within_bounds w.
Proof.
  unfold constraints_ok, within_bounds. rewrite forallb_forall.
  intros H s Hs. specialize (H s Hs). unfold Session.check in H.
  apply andb_prop in H as [H H3]. apply andb_prop in H as [H1 H2].
  lia.
Qed.

Lemma commit_inv (db w : store) (ok o : outcome) (db' : store) :
  commit db w ok = (o, db') ->
  (o = ok /\ db' = w /\ constraints_ok w = true)
  \/ (o = IntegrityError /\ db' = db /\ constraints_ok w = false).
Proof.
  unfold commit. destruct (constraints_ok w); intros H; inv H; auto.
Qed.


Lemma commit_unchanged (db w : store) (ok o : outcome) (db' : store) :
  succeeded ok = true ->
  commit db w ok = (o, db') -> succeeded o = false -> db' = db.
Proof.
  intros Hok H Ho. apply commit_inv in H as [(-> & _ & _)|(_ & -> & _)].
  - congruence.
  - reflexivity.
Qed.














Lemma key_unique {A : Type} (key : A -> Z) (l : list A) (a b : A) :
  NoDup (map key l) -> In a l -> In b l -> key a = key b -> a = b.
Proof.
  induction l as [|x l IH]; simpl; intros Hnd Ha Hb Hk.
  - contradiction.
  - inv Hnd. destruct Ha as [->|Ha], Hb as [->|Hb].
    + reflexivity.
    + exfalso. apply H1. rewrite Hk. apply in_map. exact Hb.
    + exfalso. apply H1. rewrite <- Hk. apply in_map. exact Ha.
    + auto.
Qed.

Lemma find_key_some {A : Type} (key : A -> Z) (k : Z) (l : list A) (x : A) :
  find (fun y => key y =? k) l = Some x -> In x l /\ key x = k.
Proof.
  intros H. apply find_some in H as [H1 H2]. apply Z.eqb_eq in H2. auto.
Qed.

Lemma map_key_update {A : Type} (key : A -> Z) (p : A -> bool) (f : A -> A)
  (l : list A) :
  (forall x, key (f x) = key x) ->
  map key (update_where p f l) = map key l.
Proof.
  intros Hf. unfold update_where. rewrite map_map. apply map_ext.
  intros a. destruct (p a); auto.
Qed.

(** With distinct keys, rewriting the rows of key [k] touches one row. *)
Lemma forallb_update_key {A : Type} (key : A -> Z) (P : A -> bool)
  (f : A -> A) (k : Z) (l : list A) (x : A) :
  NoDup (map key l) ->
  find (fun y => key y =? k) l = Some x ->
  forallb P l = true -> P (f x) = true ->
  forallb P (update_where (fun y => key y =? k) f l) = true.
Proof.
  intros Hnd Hx Hall Hfx. apply find_key_some in Hx as [Hin Hk].
  rewrite forallb_forall in *. intros y Hy.
  apply in_update_where in Hy as (a & Ha & [->|[Hp ->]]).
  - auto.
  - apply Z.eqb_eq in Hp.
    assert (a = x) as -> by (eapply key_unique; eauto; congruence).
    exact Hfx.
Qed.

Lemma nodup_app_fresh (ids : list Z) : NoDup ids -> NoDup (ids ++ [next_id ids]).
Proof.
  intros H. apply NoDup_app; auto.
  - constructor; [intros [] | constructor].
  - intros a Ha [<-|[]]. revert Ha. apply next_id_fresh.
Qed.

(** ** Reading the sessions table after a write *)

Lemma get_session_adjust (k k' d : Z) (w : store) :
  get_session k' (adjust_spots k d w)
  = if k' =? k
    then option_map
           (fun s => Session.with_spots_left (Session.spots_left s + d) s)
           (get_session k' w)
    else get_session k' w.
Proof.
  unfold get_session, adjust_spots, upd_session; simpl.
  apply (find_key_update Session.id). intros x; reflexivity.
Qed.

Lemma spots_adjust (k k' d : Z) (w : store) :
  spots k' (adjust_spots k d w)
  = if k' =? k then option_map (fun n => n + d) (spots k' w)
    else spots k' w.
Proof.
  unfold spots. rewrite get_session_adjust.
  destruct (k' =? k); [|reflexivity].
  destruct (get_session k' w); reflexivity.
Qed.

Lemma get_session_id (k : Z) (w : store) (s : Session.t) :
  get_session k w = Some s -> Session.id s = k /\ In s (sessions w).
Proof.
  unfold get_session. intros H. apply find_key_some in H. tauto.
Qed.

Lemma get_reservation_id (k : Z) (w : store) (r : Reservation.t) :
  get_reservation k w = Some r ->
  Reservation.id r = k /\ In r (reservations w).
Proof.
  unfold get_reservation. intros H. apply find_key_some in H. tauto.
Qed.

Lemma constraints_ok_adjust (k d : Z) (w : store) (s : Session.t) :
  NoDup (map Session.id (sessions w)) ->
  constraints_ok w = true ->
  get_session k w = Some s ->
  0 <= Session.spots_left s + d <= Session.capacity s ->
  constraints_ok (adjust_spots k d w) = true.
Proof.
  intros Hnd Hok Hs Hb. unfold constraints_ok, adjust_spots, upd_session; simpl.
  eapply (forallb_update_key Session.id); eauto.
  apply get_session_id in Hs as [_ Hin].
  unfold constraints_ok in Hok. rewrite forallb_forall in Hok.
  specialize (Hok s Hin). unfold Session.check in *; simpl.
  apply andb_prop in Hok as [Hok H3]. apply andb_prop in Hok as [H1 H2].
  rewrite H1. simpl. apply andb_true_intro. split; lia.
Qed.

(** ** Reserve *)


Lemma reserve_commits user sid db s :
  stored db -> get_session sid db = Some s -> 0 < Session.spots_left s ->
  commit db (adjust_spots (Session.id s) (-1)
               (add_reservation user sid active db)) Reserved
  = (Reserved, adjust_spots sid (-1) (add_reservation user sid active db)).
Proof.
  intros (Hok & Hnd & _) Hs Hpos.
  destruct (get_session_id _ _ _ Hs) as [Hid Hin]. rewrite Hid.
  unfold commit.
  rewrite (constraints_ok_adjust sid (-1) (add_reservation user sid active db) s);
    auto.
  pose proof (constraints_ok_bounds db Hok s Hin). lia.
Qed.

(** ** Primary keys are kept by every write *)

Lemma same_keys_refl w : same_keys w w.
Proof. repeat split. Qed.

Lemma same_keys_trans w1 w2 w3 :
  same_keys w1 w2 -> same_keys w2 w3 -> same_keys w1 w3.
Proof.
  intros (A1 & A2 & A3) (B1 & B2 & B3). repeat split; congruence.
Qed.

Lemma same_keys_adjust_spots k d w : same_keys w (adjust_spots k d w).
Proof.
  repeat split. simpl. apply map_key_update. reflexivity.
Qed.

Lemma same_keys_set_completed k w : same_keys w (set_completed k w).
Proof.
  repeat split. simpl. apply map_key_update. reflexivity.
Qed.

Lemma same_keys_set_status k st w : same_keys w (set_status k st w).
Proof.
  repeat split. simpl. apply map_key_update. reflexivity.
Qed.

Lemma same_keys_adjust_credits k d w : same_keys w (adjust_credits k d w).
Proof.
  repeat split. simpl. apply map_key_update. reflexivity.
Qed.

Lemma same_keys_settle w r : same_keys w (settle_reservation w r).
Proof.
  unfold settle_reservation.
  destruct (status_eqb (Reservation.status_of r) active);
    [|apply same_keys_refl].
  destruct (find_member _ _) as [m|]; [|apply same_keys_set_status].
  destruct (0 <? Member.credits m); [|apply same_keys_set_status].
  eapply same_keys_trans;
    [apply same_keys_set_status | apply same_keys_adjust_credits].
Qed.

Lemma same_keys_fold {A : Type} (f : store -> A -> store) (l : list A) :
  (forall w a, same_keys w (f w a)) ->
  forall w, same_keys w (fold_left f l w).
Proof.
  intros Hf. induction l as [|a l IH]; simpl; intros w.
  - apply same_keys_refl.
  - eapply same_keys_trans; [apply Hf | apply IH].
Qed.

Lemma same_keys_close w s : same_keys w (close_session w s).
Proof.
  unfold close_session.
  eapply same_keys_trans; [apply same_keys_set_completed|].
  apply same_keys_fold. apply same_keys_settle.
Qed.

Lemma stored_commit db w ok :
  stored db ->
  NoDup (map Session.id (sessions w)) ->
  NoDup (map Reservation.id (reservations w)) ->
  NoDup (map Member.id (members w)) ->
  stored (snd (commit db w ok)).
Proof.
  intros Hdb N1 N2 N3. unfold commit.
  destruct (constraints_ok w) eqn:E; simpl; [|exact Hdb].
  repeat split; assumption.
Qed.

Lemma stored_commit_keys db w ok :
  stored db -> same_keys db w -> stored (snd (commit db w ok)).
Proof.
  intros Hdb (K1 & K2 & K3). pose proof Hdb as (_ & N1 & N2 & N3).
  apply stored_commit; auto; congruence.
Qed.

Lemma sweep_stored now db : stored db -> stored (sweep now db).
Proof.
  intros H. unfold sweep, close_past_sessions_and_apply_attendance.
  destruct (to_close now db) eqn:E; [exact H|]. rewrite <- E.
  apply stored_commit_keys; [exact H|].
  apply same_keys_fold. apply same_keys_close.
Qed.

Lemma reserve_stored now user sid db :
  stored db -> stored (snd (reserve now user sid db)).
Proof.
  intros H. pose proof H as (_ & N1 & N2 & N3). unfold reserve.
  repeat break_match; simpl; auto.
  apply stored_commit; simpl; auto.
  - rewrite map_key_update; auto.
  - rewrite map_app. simpl. apply nodup_app_fresh. exact N2.
Qed.

Lemma cancel_stored now now' user rid db :
  stored db -> stored (snd (cancel now now' user rid db)).
Proof.
  intros H. unfold cancel.
  repeat break_match; simpl; auto.
  apply stored_commit_keys; auto.
  eapply same_keys_trans;
    [apply same_keys_set_status | apply same_keys_adjust_spots].
Qed.

Lemma move_stored now user rid method db :
  stored db -> stored (snd (move now user rid method db)).
Proof.
  intros H. pose proof H as (_ & N1 & N2 & N3). unfold move.
  repeat break_match; simpl; auto.
  apply stored_commit; simpl; auto.
  - rewrite !map_key_update; auto.
  - rewrite map_app. simpl. apply nodup_app_fresh.
    rewrite map_key_update; auto.
Qed.

Lemma admin_cancel_stored rid db :
  stored db -> stored (snd (admin_cancel_reservation_refund rid db)).
Proof.
  intros H. unfold admin_cancel_reservation_refund.
  repeat break_match; simpl; auto; apply stored_commit_keys; auto;
    repeat (first [ apply same_keys_refl
                  | apply same_keys_set_status
                  | apply same_keys_adjust_spots
                  | apply same_keys_adjust_credits
                  | eapply same_keys_trans; [|apply same_keys_set_status]
                  | eapply same_keys_trans; [|apply same_keys_adjust_spots] ]).
Qed.

Lemma admin_sessions_stored d t cap notes db :
  stored db -> stored (snd (admin_sessions d t cap notes db)).
Proof.
  intros H. pose proof H as (_ & N1 & N2 & N3). unfold admin_sessions.
  set (w := add_session _ _ _ _ _ _).
  assert (Hc : stored (snd (commit db w SessionAdded))).
  { apply stored_commit; subst w; simpl; auto.
    rewrite map_app. simpl. apply nodup_app_fresh. exact N1. }
  destruct (commit db w SessionAdded) as [o db'] eqn:E.
  destruct o; simpl in *; auto.
Qed.

Lemma admin_members_stored name credits db :
  stored db -> stored (snd (admin_members name credits db)).
Proof.
  intros H. pose proof H as (_ & N1 & N2 & N3). unfold admin_members.
  repeat break_match; simpl; auto.
  apply stored_commit; simpl; auto.
  rewrite map_app. simpl. apply nodup_app_fresh. exact N3.
Qed.

Lemma same_keys_refund w r : same_keys w (refund_reservation w r).
Proof.
  unfold refund_reservation.
  destruct (find_member _ w) as [m|]; [|apply same_keys_set_status].
  destruct (status_eqb _ attended); [|apply same_keys_set_status].
  eapply same_keys_trans;
    [apply same_keys_adjust_credits | apply same_keys_set_status].
Qed.

Lemma stored_delete_session sid db :
  stored db -> stored (snd (commit db (delete_session sid db) SessionDeleted)).
Proof.
  intros H. pose proof H as (_ & N1 & N2 & N3).
  apply stored_commit; simpl; auto using nodup_map_filter.
Qed.

Lemma admin_delete_session_stored now sid db :
  stored db -> stored (snd (admin_delete_session now sid db)).
Proof.
  intros H. unfold admin_delete_session.
  destruct (get_session sid db) as [s|]; [|exact H].
  destruct (Session.is_past now s); [exact H|].
  set (w := fold_left refund_reservation _ db).
  assert (H1 : stored (snd (commit db w SessionDeleted))).
  { apply stored_commit_keys; [exact H|].
    apply same_keys_fold. apply same_keys_refund. }
  destruct (commit db w SessionDeleted) as [o db1].
  destruct o; simpl in *; auto using stored_delete_session.
Qed.

Lemma admin_members_delete_stored mid db :
  stored db -> stored (snd (admin_members_delete mid db)).
Proof.
  intros H. pose proof H as (_ & N1 & N2 & N3). unfold admin_members_delete.
  destruct (get_member mid db) as [m|]; [|exact H].
  apply stored_commit; simpl; auto using nodup_map_filter.
Qed.

Lemma admin_members_adjust_credits_stored mid delta db :
  stored db -> stored (snd (admin_members_adjust_credits mid delta db)).
Proof.
  intros H. unfold admin_members_adjust_credits.
  destruct (get_member mid db) as [m|]; [|exact H].
  apply stored_commit_keys; [exact H|].
  repeat split. simpl. apply map_key_update. reflexivity.
Qed.

Lemma handle_stored q db : stored db -> stored (snd (handle q db)).
Proof.
  destruct q; simpl;
    auto using reserve_stored, cancel_stored, move_stored, admin_cancel_stored,
      admin_sessions_stored, admin_members_stored,
      admin_delete_session_stored, admin_members_delete_stored,
      admin_members_adjust_credits_stored.
Qed.

Lemma step_stored db e : stored db -> stored (step db e).
Proof.
  intros H. unfold step, served.
  pose proof (sweep_stored (fst e) db H) as Hs. unfold sweep in Hs.
  destruct (close_past_sessions_and_apply_attendance (fst e) db) as [o db1].
  simpl in Hs.
  destruct o; simpl; auto using handle_stored.
Qed.

Lemma run_stored trace db : stored db -> stored (run trace db).
Proof.
  unfold run. revert db.
  induction trace as [|e trace IH]; simpl; intros db H.
  - exact H.
  - apply IH. apply step_stored. exact H.
Qed.

Lemma empty_stored : stored empty_store.
Proof. repeat split; simpl; constructor. Qed.

Lemma reachable_stored db : reachable db -> stored db.
Proof.
  intros (trace & <-). apply run_stored. apply empty_stored.
Qed.

(** ** What a committed request did *)

Lemma status_eqb_eq (a b : status) : status_eqb a b = true <-> a = b.
Proof. destruct a, b; simpl; split; intros H; congruence. Qed.

Lemma status_eqb_neq (a b : status) : status_eqb a b = false <-> a <> b.
Proof. destruct a, b; simpl; split; intros H; congruence. Qed.

Lemma reserve_inv now user sid db db' :
  reserve now user sid db = (Reserved, db') ->
  exists s m,
    get_session sid db = Some s
    /\ Session.completed s = false /\ Session.is_past now s = false
    /\ 0 < Session.spots_left s
    /\ find_member user db = Some m /\ 0 < Member.credits m
    /\ existing_booking user sid db = None
    /\ db' = adjust_spots sid (-1) (add_reservation user sid active db)
    /\ constraints_ok db' = true.
Proof.
  unfold reserve. intros H.
  destruct (get_session sid db) as [s|] eqn:Hs; [|discriminate].
  destruct (Session.completed s || Session.is_past now s) eqn:Hc;
    [discriminate|].
  destruct (Session.spots_left s <=? 0) eqn:Hf; [discriminate|].
  destruct (find_member user db) as [m|] eqn:Hm; [|discriminate].
  destruct (Member.credits m <=? 0) eqn:Hcr; [discriminate|].
  destruct (existing_booking user sid db) eqn:Hb; [discriminate|].
  apply commit_inv in H as [(_ & -> & Hok)|(? & _)]; [|discriminate].
  apply orb_false_elim in Hc as [Hc1 Hc2].
  apply Z.leb_gt in Hf, Hcr.
  destruct (get_session_id _ _ _ Hs) as [Hid _]. rewrite Hid in *.
  exists s, m. repeat split; auto.
Qed.

Lemma cancel_inv now now' user rid db db' :
  cancel now now' user rid db = (Canceled, db') ->
  exists r s,
    get_reservation rid db = Some r
    /\ Reservation.user_name r = user
    /\ Reservation.status_of r = active
    /\ get_session (Reservation.session_id r) db = Some s
    /\ Clock.hours 24
       <= Clock.combine (Session.date s) (Session.time s) - now
    /\ Session.is_past now' s = false
    /\ db' = adjust_spots (Reservation.session_id r) 1
               (set_status rid canceled db)
    /\ constraints_ok db' = true.
Proof.
  unfold cancel. intros H.
  destruct (get_reservation rid db) as [r|] eqn:Hr; [|discriminate].
  destruct (String.eqb (Reservation.user_name r) user) eqn:Hu;
    [|discriminate]. cbn [negb orb] in H.
  destruct (status_eqb (Reservation.status_of r) active) eqn:Ha;
    [|discriminate]. cbn [negb orb] in H.
  destruct (get_session (Reservation.session_id r) db) as [s|] eqn:Hs;
    [|discriminate].
  destruct (_ - now <? Clock.hours 24) eqn:Hl; [discriminate|].
  destruct (Session.is_past now' s) eqn:Hp; [discriminate|].
  apply commit_inv in H as [(_ & -> & Hok)|(? & _)]; [|discriminate].
  apply String.eqb_eq in Hu. apply status_eqb_eq in Ha.
  apply Z.ltb_ge in Hl.
  destruct (get_session_id _ _ _ Hs) as [Hid _].
  destruct (get_reservation_id _ _ _ Hr) as [Hrid _].
  rewrite Hid, Hrid in *.
  exists r, s. repeat split; auto.
Qed.

Lemma move_inv now user rid tid db db' :
  move now user rid (POST tid) db = (Moved, db') ->
  exists r src tgt,
    get_reservation rid db = Some r
    /\ Reservation.user_name r = user
    /\ Reservation.status_of r = active
    /\ get_session tid db = Some tgt
    /\ Session.is_past now tgt = false
    /\ 0 < Session.spots_left tgt
    /\ get_session (Reservation.session_id r) db = Some src
    /\ db' = adjust_spots tid (-1)
               (add_reservation (Reservation.user_name r) tid active
                  (adjust_spots (Reservation.session_id r) 1
                     (set_status rid moved db)))
    /\ constraints_ok db' = true.
Proof.
  unfold move. intros H.
  destruct (get_reservation rid db) as [r|] eqn:Hr; [|discriminate].
  destruct (String.eqb (Reservation.user_name r) user) eqn:Hu;
    [|discriminate]. cbn [negb orb] in H.
  destruct (status_eqb (Reservation.status_of r) active) eqn:Ha;
    [|discriminate]. cbn [negb orb] in H.
  destruct (get_session tid db) as [tgt|] eqn:Ht; [|discriminate].
  destruct (Session.is_past now tgt) eqn:Hp; [discriminate|].
  destruct (Session.spots_left tgt <=? 0) eqn:Hf; [discriminate|].
  change (get_session (Reservation.session_id r)
            (set_status (Reservation.id r) moved db))
    with (get_session (Reservation.session_id r) db) in H.
  destruct (get_session (Reservation.session_id r) db) as [src|] eqn:Hs;
    [|discriminate].
  apply commit_inv in H as [(_ & -> & Hok)|(? & _)]; [|discriminate].
  apply String.eqb_eq in Hu. apply status_eqb_eq in Ha.
  apply Z.leb_gt in Hf.
  destruct (get_session_id _ _ _ Hs) as [Hid _].
  destruct (get_session_id _ _ _ Ht) as [Htid _].
  destruct (get_reservation_id _ _ _ Hr) as [Hrid _].
  rewrite Hid, Htid, Hrid in *.
  exists r, src, tgt. repeat split; auto.
Qed.

(** ** Free places after reserve, cancel and move *)

Lemma spots_some (k : Z) (w : store) (s : Session.t) :
  get_session k w = Some s -> spots k w = Some (Session.spots_left s).
Proof. unfold spots. intros ->. reflexivity. Qed.

Lemma reserve_spots now user sid db db' :
  reserve now user sid db = (Reserved, db') ->
  exists n,
    spots sid db = Some n /\ spots sid db' = Some (n - 1) /\ 0 < n
    /\ (forall k, k <> sid -> spots k db' = spots k db)
    /\ within_bounds db'.
Proof.
  intros H. apply reserve_inv in H
    as (s & m & Hs & _ & _ & Hpos & _ & _ & _ & -> & Hok).
  exists (Session.spots_left s). split_ands.
  - apply spots_some. exact Hs.
  - rewrite spots_adjust, Z.eqb_refl.
    change (spots sid (add_reservation user sid active db)) with (spots sid db).
    rewrite (spots_some _ _ _ Hs). reflexivity.
  - exact Hpos.
  - intros k Hk. rewrite spots_adjust.
    apply Z.eqb_neq in Hk. rewrite Hk. reflexivity.
  - apply constraints_ok_bounds. exact Hok.
Qed.



(** ** Move *)

Lemma get_reservation_set_status (k k' : Z) (st : status) (w : store) :
  get_reservation k' (set_status k st w)
  = if k' =? k
    then option_map (Reservation.with_status st) (get_reservation k' w)
    else get_reservation k' w.
Proof.
  unfold get_reservation, set_status, upd_reservation; simpl.
  apply (find_key_update Reservation.id). intros x; reflexivity.
Qed.

Lemma get_reservation_add (k : Z) name sid st (w : store) r :
  get_reservation k w = Some r ->
  get_reservation k (add_reservation name sid st w) = Some r.
Proof.
  unfold get_reservation, add_reservation; simpl. apply find_app_found.
Qed.

Lemma get_reservation_moved rid tid name d d' db r :
  get_reservation rid db = Some r ->
  get_reservation rid
    (adjust_spots tid d'
       (add_reservation name tid active
          (adjust_spots (Reservation.session_id r) d
             (set_status rid moved db))))
  = Some (Reservation.with_status moved r).
Proof.
  intros Hr.
  change (get_reservation rid
            (add_reservation name tid active
               (set_status rid moved db))
          = Some (Reservation.with_status moved r)).
  apply get_reservation_add.
  rewrite get_reservation_set_status, Z.eqb_refl, Hr. reflexivity.
Qed.

(** ** Reserve, then cancel *)

Lemma get_new_reservation name sid st db :
  get_reservation (new_reservation_id db) (add_reservation name sid st db)
  = Some (Reservation.mk (new_reservation_id db)
            (Reservation.normalize_name name) sid st).
Proof.
  unfold get_reservation, add_reservation, new_reservation_id; simpl.
  rewrite find_app_fresh.
  - simpl. rewrite Z.eqb_refl. reflexivity.
  - apply (find_key_none Reservation.id). apply next_id_fresh.
Qed.

Lemma with_spots_left_back (s : Session.t) (d : Z) :
  Session.with_spots_left
    (Session.spots_left (Session.with_spots_left (Session.spots_left s + d) s)
     + - d)
    (Session.with_spots_left (Session.spots_left s + d) s) = s.
Proof.
  destruct s; unfold Session.with_spots_left; simpl. f_equal. lia.
Qed.

Lemma adjust_spots_back (k d : Z) (w : store) :
  sessions (adjust_spots k (- d) (adjust_spots k d w)) = sessions w.
Proof.
  unfold adjust_spots, upd_session, update_where; simpl.
  rewrite map_map. rewrite <- (map_id (sessions w)) at 2.
  apply map_ext. intros s.
  destruct (Session.id s =? k) eqn:E; simpl.
  - rewrite E. apply with_spots_left_back.
  - rewrite E. reflexivity.
Qed.

(** ** Failures store nothing *)

Lemma reserve_failure now user sid db :
  succeeded (fst (reserve now user sid db)) = false ->
  snd (reserve now user sid db) = db.
Proof.
  unfold reserve.
  repeat break_match; simpl; auto.
  destruct (commit _ _ _) as [o db'] eqn:E. simpl. intros Ho.
  eapply commit_unchanged; eauto; reflexivity.
Qed.

Lemma cancel_failure now now' user rid db :
  succeeded (fst (cancel now now' user rid db)) = false ->
  snd (cancel now now' user rid db) = db.
Proof.
  unfold cancel.
  repeat break_match; simpl; auto.
  destruct (commit _ _ _) as [o db'] eqn:E. simpl. intros Ho.
  eapply commit_unchanged; eauto; reflexivity.
Qed.

Lemma move_failure now user rid method db :
  succeeded (fst (move now user rid method db)) = false ->
  snd (move now user rid method db) = db.
Proof.
  unfold move.
  repeat break_match; simpl; auto.
  destruct (commit _ _ _) as [o db'] eqn:E. simpl. intros Ho.
  eapply commit_unchanged; eauto; reflexivity.
Qed.

Lemma served_failure now0 handler db :
  (forall db1, succeeded (fst (handler db1)) = false ->
               snd (handler db1) = db1) ->
  succeeded (fst (served now0 handler db)) = false ->
  snd (served now0 handler db) = sweep now0 db.
Proof.
  intros Hh. unfold served, sweep.
  destruct (close_past_sessions_and_apply_attendance now0 db) as [o db1].
  destruct o; simpl; auto.
Qed.

(** ** Admin cancel with refund *)



Lemma admin_cancel_inv rid db db' :
  admin_cancel_reservation_refund rid db = (Refunded, db') ->
  exists r,
    get_reservation rid db = Some r
    /\ Reservation.status_of r <> canceled
    /\ reservations db'
       = update_where (fun x => Reservation.id x =? rid)
           (Reservation.with_status canceled) (reservations db)
    /\ members db'
       = match Reservation.status_of r, find_member (Reservation.user_name r) db
         with
         | attended, Some m => members (adjust_credits (Member.id m) 1 db)
         | _, _ => members db
         end
    /\ sessions db'
       = match Reservation.status_of r,
               get_session (Reservation.session_id r) db with
         | active, Some s =>
             if Session.completed s then sessions db
             else sessions (adjust_spots (Reservation.session_id r) 1 db)
         | _, _ => sessions db
         end
    /\ (Reservation.status_of r = active ->
        exists s, get_session (Reservation.session_id r) db = Some s)
    /\ constraints_ok db' = true.
Proof.
  unfold admin_cancel_reservation_refund. intros H.
  destruct (get_reservation rid db) as [r|] eqn:Hr; [|discriminate].
  destruct (get_reservation_id _ _ _ Hr) as [Hrid _]. rewrite Hrid in H.
  exists r. split; [reflexivity|].
  destruct (Reservation.status_of r) eqn:Est; cbn [status_eqb] in H;
    try discriminate.
  - (* active *)
    assert (Hw1 : (match find_member (Reservation.user_name r) db with
                   | Some _ => db | None => db end) = db)
      by (destruct (find_member _ db); reflexivity).
    rewrite Hw1 in H.
    destruct (get_session (Reservation.session_id r) db) as [s|] eqn:Hs;
      [|discriminate].
    destruct (get_session_id _ _ _ Hs) as [Hid _]. rewrite Hid in H.
    destruct (Session.completed s); cbn [negb] in H;
      apply commit_inv in H as [(_ & -> & Hok)|(? & _)]; try discriminate;
      split_ands; eauto; try congruence;
      destruct (find_member _ db); reflexivity.
  - (* moved *)
    apply commit_inv in H as [(_ & -> & Hok)|(? & _)]; try discriminate.
    split_ands; eauto; try congruence;
      destruct (find_member _ db); reflexivity.
  - (* attended *)
    apply commit_inv in H as [(_ & -> & Hok)|(? & _)]; try discriminate.
    split_ands; eauto; try congruence;
      destruct (find_member _ db); reflexivity.
  - (* no_show *)
    apply commit_inv in H as [(_ & -> & Hok)|(? & _)]; try discriminate.
    split_ands; eauto; try congruence;
      destruct (find_member _ db); reflexivity.
Qed.

Lemma constraints_ok_sessions w w' :
  sessions w' = sessions w -> constraints_ok w' = constraints_ok w.
Proof. unfold constraints_ok. intros ->. reflexivity. Qed.


(** ** The sweep, table by table *)

Lemma filter_none {A : Type} (p : A -> bool) (l : list A) :
  (forall x, In x l -> p x = false) -> filter p l = [].
Proof.
  induction l as [|a l IH]; simpl; intros H.
  - reflexivity.
  - rewrite (H a) by auto. apply IH. auto.
Qed.

(** Rewriting rows by key, once per element of [rs] that passes [c], with a
    function that keeps keys and is idempotent. *)
Lemma fold_update_keys {A B : Type} (key : A -> Z) (f : A -> A)
  (c : B -> bool) (kb : B -> Z) (rs : list B) :
  (forall x, key (f x) = key x) ->
  (forall x, f (f x) = f x) ->
  forall l,
    fold_left
      (fun l r => if c r then update_where (fun x => key x =? kb r) f l else l)
      rs l
    = map (fun x => if hits c kb rs (key x) then f x else x) l.
Proof.
  intros Hkey Hidem. induction rs as [|r rs IH]; intros l.
  - simpl. symmetry. apply map_id.
  - cbn [fold_left]. rewrite IH. unfold hits at 2. cbn [existsb].
    fold (hits c kb rs). destruct (c r); cbn [andb orb].
    + unfold update_where. rewrite map_map. apply map_ext. intros x.
      destruct (key x =? kb r) eqn:E; cbn [orb].
      * rewrite Hkey.
        destruct (hits c kb rs (key x)); [apply Hidem | reflexivity].
      * reflexivity.
    + reflexivity.
Qed.

Lemma settle_tables w r :
  sessions (settle_reservation w r) = sessions w
  /\ reservations (settle_reservation w r) = res_step (reservations w) r
  /\ members (settle_reservation w r) = mem_step (members w) r.
Proof.
  unfold settle_reservation, res_step, mem_step, debit.
  destruct (status_eqb (Reservation.status_of r) active); [|auto].
  change (find_member (Reservation.user_name r)
            (set_status (Reservation.id r) attended w))
    with (find (name_matches (Reservation.user_name r)) (members w)).
  destruct (find _ (members w)) as [m|]; [|auto].
  destruct (0 <? Member.credits m); auto.
Qed.

Lemma fold_settle_tables rs w :
  sessions (fold_left settle_reservation rs w) = sessions w
  /\ reservations (fold_left settle_reservation rs w)
     = fold_left res_step rs (reservations w)
  /\ members (fold_left settle_reservation rs w)
     = fold_left mem_step rs (members w).
Proof.
  revert w. induction rs as [|r rs IH]; intros w; simpl.
  - auto.
  - destruct (IH (settle_reservation w r)) as (A & B & C).
    destruct (settle_tables w r) as (A' & B' & C').
    rewrite A, B, C, A', B', C'. auto.
Qed.

Lemma close_tables w s :
  sessions (close_session w s)
  = update_where (fun x => Session.id x =? Session.id s)
      (Session.with_completed true) (sessions w)
  /\ reservations (close_session w s)
     = fold_left res_step
         (filter (fun r => Reservation.session_id r =? Session.id s)
            (reservations w))
         (reservations w)
  /\ members (close_session w s)
     = fold_left mem_step
         (filter (fun r => Reservation.session_id r =? Session.id s)
            (reservations w))
         (members w).
Proof.
  unfold close_session.
  destruct (fold_settle_tables
              (reservations_of (Session.id s) (set_completed (Session.id s) w))
              (set_completed (Session.id s) w)) as (A & B & C).
  rewrite A, B, C. auto.
Qed.

Lemma fold_close_sessions cs w :
  sessions (fold_left close_session cs w)
  = map (fun x => if hits (fun _ => true) Session.id cs (Session.id x)
                  then Session.with_completed true x else x)
      (sessions w).
Proof.
  rewrite <- (fold_update_keys Session.id (Session.with_completed true)
                (fun _ => true) Session.id cs)
    by reflexivity.
  revert w. induction cs as [|s cs IH]; intros w; simpl.
  - reflexivity.
  - rewrite IH. destruct (close_tables w s) as (A & _). rewrite A.
    reflexivity.
Qed.

Lemma hits_due (now : Z) (l : list Session.t) (x : Session.t) :
  In x l -> due now x = true ->
  hits (fun _ => true) Session.id (filter (due now) l) (Session.id x) = true.
Proof.
  intros Hin Hdue. apply existsb_exists. exists x. split.
  - apply filter_In. auto.
  - apply Z.eqb_refl.
Qed.

(** After the loops no session is due. *)
Lemma nothing_due_after now db w :
  sessions w = sessions (fold_left close_session (to_close now db) db) ->
  to_close now w = [].
Proof.
  intros Hw. unfold to_close at 1. rewrite Hw, fold_close_sessions.
  apply filter_none. intros y Hy. apply in_map_iff in Hy as (x & <- & Hx).
  destruct (hits _ _ (to_close now db) _) eqn:E.
  - unfold due. simpl. reflexivity.
  - destruct (due now x) eqn:Hd; [|reflexivity].
    unfold to_close in E. rewrite hits_due in E by assumption.
    discriminate.
Qed.

Lemma constraints_ok_closed cs w :
  constraints_ok (fold_left close_session cs w) = constraints_ok w.
Proof.
  unfold constraints_ok. rewrite fold_close_sessions.
  induction (sessions w) as [|x l IH]; simpl.
  - reflexivity.
  - rewrite IH. f_equal.
    destruct (hits _ _ cs (Session.id x)); reflexivity.
Qed.

(** ** The sweep against its description *)

Lemma fold_mem_step rs ms :
  fold_left mem_step rs ms
  = fold_left (fun ms name => debit name ms)
      (map Reservation.user_name (filter is_active rs)) ms.
Proof.
  revert ms. induction rs as [|r rs IH]; intros ms; simpl.
  - reflexivity.
  - unfold mem_step at 2. unfold is_active at 1.
    destruct (status_eqb (Reservation.status_of r) active); simpl; apply IH.
Qed.

Lemma fold_res_step rs l :
  fold_left res_step rs l
  = map (fun x => if hits is_active Reservation.id rs (Reservation.id x)
                  then Reservation.with_status attended x else x) l.
Proof.
  apply (fold_update_keys Reservation.id (Reservation.with_status attended)
           is_active Reservation.id rs); reflexivity.
Qed.

Lemma filter_map_fixed {A : Type} (p : A -> bool) (g : A -> A) (l : list A) :
  (forall x, p (g x) = p x) ->
  (forall x, p x = true -> g x = x) ->
  filter p (map g l) = filter p l.
Proof.
  intros Hp Hg. induction l as [|a l IH]; simpl.
  - reflexivity.
  - rewrite Hp. destruct (p a) eqn:E.
    + rewrite Hg by assumption. f_equal. exact IH.
    + exact IH.
Qed.

(** With distinct keys, a row is hit by the active reservations of session
    [sid] exactly when it is one of them. *)
Lemma hits_own_session (R : list Reservation.t) (sid : Z) (x : Reservation.t) :
  NoDup (map Reservation.id R) -> In x R ->
  hits is_active Reservation.id
    (filter (fun r => Reservation.session_id r =? sid) R) (Reservation.id x)
  = is_active x && (Reservation.session_id x =? sid).
Proof.
  intros Hnd Hin. apply eq_true_iff_eq. unfold hits.
  rewrite existsb_exists, andb_true_iff. split.
  - intros (r & Hr & Hc). apply filter_In in Hr as [HrR Hsid].
    apply andb_prop in Hc as [Ha Hk]. apply Z.eqb_eq in Hk.
    assert (x = r) as -> by (eapply key_unique; eauto). auto.
  - intros (Ha & Hsid). exists x. split.
    + apply filter_In. auto.
    + rewrite Ha, Z.eqb_refl. reflexivity.
Qed.

Lemma closes_app ss ss' sid :
  closes (ss ++ ss') sid = closes ss sid || closes ss' sid.
Proof. apply existsb_app. Qed.

Lemma closes_absent ss sid :
  ~ In sid (map Session.id ss) -> closes ss sid = false.
Proof.
  intros H. unfold closes. destruct (existsb _ ss) eqn:E; [|reflexivity].
  apply existsb_exists in E as (s & Hs & Hk). apply Z.eqb_eq in Hk.
  exfalso. apply H. rewrite <- Hk. apply in_map. exact Hs.
Qed.

(** The outer loop: [P] are the sessions closed so far, [cs] those still to
    close, [R] the reservations table before the sweep. *)
Lemma fold_close_tables (R : list Reservation.t) :
  NoDup (map Reservation.id R) ->
  forall cs P w,
    NoDup (map Session.id (P ++ cs)) ->
    reservations w = map (attend P) R ->
    reservations (fold_left close_session cs w) = map (attend (P ++ cs)) R
    /\ members (fold_left close_session cs w)
       = fold_left (fun ms name => debit name ms)
           (flat_map (attendees R) cs) (members w).
Proof.
  intros HR. induction cs as [|s cs IH]; intros P w Hnd Hw.
  - simpl. rewrite app_nil_r. auto.
  - cbn [fold_left flat_map].
    destruct (close_tables w s) as (_ & Hres & Hmem).
    assert (Hout : ~ In (Session.id s) (map Session.id P)).
    { rewrite map_app in Hnd. simpl in Hnd.
      apply NoDup_remove_2 in Hnd. intros Hin. apply Hnd.
      apply in_or_app. left. exact Hin. }
    assert (Hsnap :
      filter (fun r => Reservation.session_id r =? Session.id s)
        (reservations w)
      = filter (fun r => Reservation.session_id r =? Session.id s) R).
    { rewrite Hw. apply filter_map_fixed.
      - intros x. unfold attend. destruct (_ && _); reflexivity.
      - intros x Hx. apply Z.eqb_eq in Hx. unfold attend.
        rewrite Hx, (closes_absent P _ Hout), andb_false_r. reflexivity. }
    rewrite Hsnap in Hres, Hmem.
    destruct (IH (P ++ [s]) (close_session w s)) as (IHres & IHmem).
    + rewrite <- app_assoc. exact Hnd.
    + rewrite Hres, fold_res_step, Hw, map_map. apply map_ext_in.
      intros x Hx.
      assert (Hid : Reservation.id (attend P x) = Reservation.id x).
      { unfold attend. destruct (_ && _); reflexivity. }
      rewrite Hid, (hits_own_session R _ x HR Hx).
      unfold attend. rewrite closes_app.
      change (closes [s] (Reservation.session_id x))
        with ((Session.id s =? Reservation.session_id x) || false).
      rewrite orb_false_r, (Z.eqb_sym (Session.id s)).
      destruct (is_active x); cbn [andb]; [|reflexivity].
      destruct (closes P (Reservation.session_id x));
        destruct (Reservation.session_id x =? Session.id s); reflexivity.
    + rewrite <- app_assoc in IHres. split; [exact IHres|].
      rewrite IHmem, Hmem, fold_mem_step, fold_left_app. reflexivity.
Qed.

Lemma hits_is_due now (l : list Session.t) (x : Session.t) :
  NoDup (map Session.id l) -> In x l ->
  hits (fun _ => true) Session.id (filter (due now) l) (Session.id x)
  = due now x.
Proof.
  intros Hnd Hin. destruct (due now x) eqn:Hd.
  - apply hits_due; assumption.
  - destruct (hits _ _ _ _) eqn:E; [|reflexivity].
    apply existsb_exists in E as (s & Hs & Hk).
    apply filter_In in Hs as [Hs Hds]. simpl in Hk. apply Z.eqb_eq in Hk.
    assert (x = s) as -> by (eapply key_unique; eauto). congruence.
Qed.

Lemma sweep_loops_settled now db :
  stored db -> fold_left close_session (to_close now db) db = settled now db.
Proof.
  intros (_ & N1 & N2 & _).
  destruct (fold_close_tables (reservations db) N2 (to_close now db) [] db)
    as (Hres & Hmem).
  - simpl. unfold to_close. apply nodup_map_filter. exact N1.
  - symmetry. erewrite map_ext; [apply map_id|].
    intros x. unfold attend. simpl. rewrite andb_false_r. reflexivity.
  - pose proof (fold_close_sessions (to_close now db) db) as Hses.
    destruct (fold_left close_session (to_close now db) db) as [ss rs ms].
    simpl in *. unfold settled. f_equal; auto.
    rewrite Hses. apply map_ext_in. intros x Hx.
    unfold to_close. rewrite hits_is_due by assumption. reflexivity.
Qed.




Lemma sweep_is_settled now db :
  stored db ->
  close_past_sessions_and_apply_attendance now db = (Pass, settled now db).
Proof.
  intros Hst. unfold close_past_sessions_and_apply_attendance.
  pose proof (sweep_loops_settled now db Hst) as Hloops.
  destruct (to_close now db) as [|c cs] eqn:E.
  - rewrite <- Hloops. reflexivity.
  - rewrite <- E in *. unfold commit.
    rewrite constraints_ok_closed. destruct Hst as (Hok & _).
    rewrite Hok, Hloops. reflexivity.
Qed.

(** ** Seat accounting

    The places a session has left and its active reservations never add up
    to more than its capacity.  This is what keeps the writes of cancel,
    move and admin cancel within the CHECK constraints. *)

Lemma cnt_nil {A : Type} (p : A -> bool) : cnt p [] = 0.
Proof. reflexivity. Qed.

Lemma cnt_cons {A : Type} (p : A -> bool) (a : A) (l : list A) :
  cnt p (a :: l) = ind (p a) + cnt p l.
Proof.
  unfold cnt, ind. cbn [filter]. destruct (p a); cbn [List.length]; lia.
Qed.

Lemma cnt_app {A : Type} (p : A -> bool) (l l' : list A) :
  cnt p (l ++ l') = cnt p l + cnt p l'.
Proof.
  unfold cnt. rewrite filter_app, length_app. lia.
Qed.

Lemma cnt_nonneg {A : Type} (p : A -> bool) (l : list A) : 0 <= cnt p l.
Proof. unfold cnt. lia. Qed.

Lemma cnt_in {A : Type} (p : A -> bool) (l : list A) (x : A) :
  In x l -> p x = true -> 1 <= cnt p l.
Proof.
  induction l as [|a l IH]; simpl; intros Hin Hp.
  - contradiction.
  - rewrite cnt_cons. pose proof (cnt_nonneg p l).
    destruct Hin as [->|Hin].
    + rewrite Hp. unfold ind. lia.
    + specialize (IH Hin Hp). unfold ind. destruct (p a); lia.
Qed.

Lemma cnt_map_le {A : Type} (p : A -> bool) (g : A -> A) (l : list A) :
  (forall x, p (g x) = true -> p x = true) ->
  cnt p (map g l) <= cnt p l.
Proof.
  intros Hg. induction l as [|a l IH]; simpl.
  - lia.
  - rewrite !cnt_cons. unfold ind.
    destruct (p (g a)) eqn:E.
    + rewrite (Hg a E). lia.
    + destruct (p a); lia.
Qed.

Lemma update_where_absent {A : Type} (key : A -> Z) (f : A -> A) (k : Z)
  (l : list A) :
  ~ In k (map key l) -> update_where (fun x => key x =? k) f l = l.
Proof.
  induction l as [|a l IH]; simpl; intros H.
  - reflexivity.
  - destruct (key a =? k) eqn:E.
    + apply Z.eqb_eq in E. exfalso. apply H. left. exact E.
    + f_equal. apply IH. intros Hin. apply H. right. exact Hin.
Qed.

(** With distinct keys, rewriting the row of key [k] moves the count by
    what that row contributes. *)
Lemma cnt_update_key {A : Type} (key : A -> Z) (p : A -> bool) (f : A -> A)
  (k : Z) (l : list A) (r : A) :
  NoDup (map key l) ->
  find (fun x => key x =? k) l = Some r ->
  cnt p (update_where (fun x => key x =? k) f l)
  = cnt p l - ind (p r) + ind (p (f r)).
Proof.
  induction l as [|a l IH]; intros Hnd Hr.
  - discriminate.
  - cbn [find] in Hr. cbn [map] in Hnd. inv Hnd.
    unfold update_where. cbn [map].
    fold (update_where (fun x => key x =? k) f l).
    destruct (key a =? k) eqn:E.
    + inv Hr. apply Z.eqb_eq in E. subst k.
      rewrite update_where_absent by assumption.
      rewrite !cnt_cons. lia.
    + rewrite !cnt_cons, IH by assumption. lia.
Qed.

Lemma booked_cnt sid db : booked sid db = cnt (on_session sid) (reservations db).
Proof. reflexivity. Qed.

Lemma booked_set_status rid st db r k :
  NoDup (map Reservation.id (reservations db)) ->
  get_reservation rid db = Some r ->
  booked k (set_status rid st db)
  = booked k db - ind (on_session k r)
    + ind (on_session k (Reservation.with_status st r)).
Proof.
  intros Hnd Hr. rewrite !booked_cnt. simpl.
  apply (cnt_update_key Reservation.id); assumption.
Qed.

Lemma booked_add name sid st db k :
  booked k (add_reservation name sid st db)
  = booked k db + ind (status_eqb st active && (sid =? k)).
Proof.
  rewrite !booked_cnt. simpl. rewrite cnt_app, cnt_cons, cnt_nil.
  unfold on_session, is_active. simpl. lia.
Qed.

Lemma booked_reservations k w w' :
  reservations w' = reservations w -> booked k w' = booked k w.
Proof. unfold booked. intros ->. reflexivity. Qed.

Lemma in_sessions_adjust k d w y :
  In y (sessions (adjust_spots k d w)) ->
  exists x, In x (sessions w)
            /\ Session.id y = Session.id x
            /\ Session.capacity y = Session.capacity x
            /\ Session.spots_left y
               = Session.spots_left x + (if Session.id x =? k then d else 0).
Proof.
  simpl. unfold update_where. rewrite in_map_iff. intros (x & <- & Hx).
  exists x. split; [exact Hx|].
  destruct (Session.id x =? k); simpl; repeat split; lia.
Qed.

Lemma session_ids_adjust k d w :
  map Session.id (sessions (adjust_spots k d w)) = map Session.id (sessions w).
Proof. simpl. apply map_key_update. reflexivity. Qed.

Lemma get_session_in_ids k w s :
  get_session k w = Some s -> In k (map Session.id (sessions w)).
Proof.
  intros H. apply get_session_id in H as [<- Hin]. apply in_map. exact Hin.
Qed.

Lemma reserve_cases now user sid db o db' :
  reserve now user sid db = (o, db') -> db' = db \/ o = Reserved.
Proof.
  unfold reserve. repeat break_match; intros H; try (inv H; auto; fail).
  apply commit_inv in H as [(-> & _)|(_ & -> & _)]; auto.
Qed.

Lemma cancel_cases now now' user rid db o db' :
  cancel now now' user rid db = (o, db') -> db' = db \/ o = Canceled.
Proof.
  unfold cancel. repeat break_match; intros H; try (inv H; auto; fail).
  apply commit_inv in H as [(-> & _)|(_ & -> & _)]; auto.
Qed.

Lemma move_cases now user rid method db o db' :
  move now user rid method db = (o, db') ->
  db' = db \/ exists tid, method = POST tid /\ o = Moved.
Proof.
  unfold move. repeat break_match; intros H; try (inv H; auto; fail).
  apply commit_inv in H as [(-> & _)|(_ & -> & _)]; eauto.
Qed.

Lemma admin_cancel_cases rid db o db' :
  admin_cancel_reservation_refund rid db = (o, db') ->
  db' = db \/ o = Refunded.
Proof.
  unfold admin_cancel_reservation_refund.
  repeat break_match; intros H; try (inv H; auto; fail);
    apply commit_inv in H as [(-> & _)|(_ & -> & _)]; auto.
Qed.

Lemma reserve_accounted now user sid db :
  accounted db -> accounted (snd (reserve now user sid db)).
Proof.
  intros Hacc. destruct (reserve now user sid db) as [o db'] eqn:E.
  destruct (reserve_cases _ _ _ _ _ _ E) as [->| ->]; [exact Hacc|].
  apply reserve_inv in E as (s & m & Hs & _ & _ & _ & _ & _ & _ & -> & _).
  destruct Hacc as [Href Hsum]. simpl snd. split.
  - intros r Hr. rewrite session_ids_adjust.
    change (In r (reservations db ++
                    [Reservation.mk
                       (next_id (map Reservation.id (reservations db)))
                       (Reservation.normalize_name user) sid active]))
      in Hr.
    apply in_app_or in Hr as [Hr|[<-|[]]].
    + apply Href. exact Hr.
    + simpl. eapply get_session_in_ids. exact Hs.
  - intros y Hy. apply in_sessions_adjust in Hy as (x & Hx & Hid & Hcap & Hsp).
    change (sessions (add_reservation user sid active db))
      with (sessions db) in Hx.
    rewrite (booked_reservations _ (add_reservation user sid active db))
      by reflexivity.
    rewrite booked_add, Hid, Hcap, Hsp. simpl status_eqb. cbn [andb].
    specialize (Hsum x Hx). rewrite (Z.eqb_sym sid). unfold ind.
    destruct (Session.id x =? sid); lia.
Qed.

Lemma is_active_on_session r :
  Reservation.status_of r = active ->
  forall k, on_session k r = (Reservation.session_id r =? k).
Proof.
  intros Ha k. unfold on_session, is_active. rewrite Ha. reflexivity.
Qed.

Lemma not_active_on_session st r :
  st <> active -> forall k, on_session k (Reservation.with_status st r) = false.
Proof.
  intros Hst k. unfold on_session, is_active. simpl.
  apply status_eqb_neq in Hst. rewrite Hst. reflexivity.
Qed.

Lemma cancel_accounted now now' user rid db :
  stored db -> accounted db ->
  accounted (snd (cancel now now' user rid db)).
Proof.
  intros (_ & _ & N2 & _) Hacc.
  destruct (cancel now now' user rid db) as [o db'] eqn:E.
  destruct (cancel_cases _ _ _ _ _ _ _ E) as [->| ->]; [exact Hacc|].
  apply cancel_inv in E as (r & s & Hr & _ & Ha & Hs & _ & _ & -> & _).
  destruct Hacc as [Href Hsum]. simpl snd. split.
  - intros x Hx. rewrite session_ids_adjust.
    change (In x (update_where (fun y => Reservation.id y =? rid)
                    (Reservation.with_status canceled) (reservations db)))
      in Hx.
    apply in_map_iff in Hx as (x0 & <- & Hx0).
    specialize (Href x0 Hx0). destruct (Reservation.id x0 =? rid); exact Href.
  - intros y Hy. apply in_sessions_adjust in Hy as (x & Hx & Hid & Hcap & Hsp).
    change (sessions (set_status rid canceled db)) with (sessions db) in Hx.
    rewrite (booked_reservations _ (set_status rid canceled db))
      by reflexivity.
    rewrite (booked_set_status rid canceled db r) by assumption.
    rewrite (is_active_on_session r Ha), not_active_on_session by discriminate.
    rewrite Hid, Hcap, Hsp. specialize (Hsum x Hx).
    rewrite (Z.eqb_sym (Reservation.session_id r)). unfold ind.
    destruct (Session.id x =? Reservation.session_id r); lia.
Qed.

Lemma move_accounted now user rid method db :
  stored db -> accounted db ->
  accounted (snd (move now user rid method db)).
Proof.
  intros (_ & _ & N2 & _) Hacc.
  destruct (move now user rid method db) as [o db'] eqn:E.
  destruct (move_cases _ _ _ _ _ _ _ E) as [->|(tid & -> & ->)];
    [exact Hacc|].
  apply move_inv in E
    as (r & src & tgt & Hr & _ & Ha & Ht & _ & _ & Hs & -> & _).
  destruct Hacc as [Href Hsum]. simpl snd.
  set (sid := Reservation.session_id r) in *.
  set (w1 := set_status rid moved db).
  set (w2 := adjust_spots sid 1 w1).
  set (w3 := add_reservation (Reservation.user_name r) tid active w2).
  split.
  - intros x Hx. rewrite session_ids_adjust.
    change (map Session.id (sessions w3))
      with (map Session.id (sessions (adjust_spots sid 1 w1))).
    rewrite session_ids_adjust.
    change (In x (update_where (fun y => Reservation.id y =? rid)
                    (Reservation.with_status moved) (reservations db)
                  ++ [Reservation.mk
                        (next_id (map Reservation.id (reservations w2)))
                        (Reservation.normalize_name (Reservation.user_name r))
                        tid active]))
      in Hx.
    apply in_app_or in Hx as [Hx|[<-|[]]].
    + apply in_map_iff in Hx as (x0 & <- & Hx0).
      specialize (Href x0 Hx0).
      destruct (Reservation.id x0 =? rid); exact Href.
    + simpl. eapply get_session_in_ids. exact Ht.
  - intros y Hy. apply in_sessions_adjust in Hy as (x & Hx & Hid & Hcap & Hsp).
    change (sessions w3) with (sessions (adjust_spots sid 1 w1)) in Hx.
    apply in_sessions_adjust in Hx as (x0 & Hx0 & Hid0 & Hcap0 & Hsp0).
    change (sessions w1) with (sessions db) in Hx0.
    rewrite (booked_reservations _ w3) by reflexivity.
    unfold w3. rewrite booked_add.
    rewrite (booked_reservations _ w1) by reflexivity.
    unfold w1. rewrite (booked_set_status rid moved db r) by assumption.
    rewrite (is_active_on_session r Ha), not_active_on_session by discriminate.
    fold sid. rewrite Hid, Hcap, Hsp, Hid0, Hcap0, Hsp0.
    specialize (Hsum x0 Hx0). simpl status_eqb. cbn [andb].
    rewrite (Z.eqb_sym sid), (Z.eqb_sym tid). unfold ind.
    destruct (Session.id x0 =? sid); destruct (Session.id x0 =? tid); lia.
Qed.

Lemma admin_cancel_accounted rid db :
  stored db -> accounted db ->
  accounted (snd (admin_cancel_reservation_refund rid db)).
Proof.
  intros (_ & _ & N2 & _) Hacc.
  destruct (admin_cancel_reservation_refund rid db) as [o db'] eqn:E.
  destruct (admin_cancel_cases _ _ _ _ E) as [->| ->]; [exact Hacc|].
  apply admin_cancel_inv in E
    as (r & Hr & Hnc & Hres & _ & Hses & _ & _).
  destruct Hacc as [Href Hsum]. simpl snd.
  assert (Hbooked : forall k,
    booked k db' = booked k db - ind (on_session k r)).
  { intros k. rewrite !booked_cnt, Hres.
    rewrite (cnt_update_key Reservation.id _ _ _ _ r) by assumption.
    rewrite (not_active_on_session canceled r) by discriminate.
    unfold ind at 2. lia. }
  assert (Hids : map Session.id (sessions db') = map Session.id (sessions db)).
  { rewrite Hses.
    destruct (Reservation.status_of r); try reflexivity.
    destruct (get_session _ db) as [s|]; try reflexivity.
    destruct (Session.completed s); [reflexivity|].
    apply session_ids_adjust. }
  split.
  - intros x Hx. rewrite Hids. rewrite Hres in Hx.
    apply in_map_iff in Hx as (x0 & <- & Hx0).
    specialize (Href x0 Hx0). destruct (Reservation.id x0 =? rid); exact Href.
  - intros y Hy. rewrite Hbooked.
    assert (Hold : In y (sessions db) ->
                   Session.spots_left y
                   + (booked (Session.id y) db - ind (on_session (Session.id y) r))
                   <= Session.capacity y).
    { intros Hin. specialize (Hsum y Hin). unfold ind.
      destruct (on_session _ r); lia. }
    rewrite Hses in Hy.
    destruct (Reservation.status_of r) eqn:Ha; auto.
    destruct (get_session (Reservation.session_id r) db) as [s|]; auto.
    destruct (Session.completed s); auto.
    apply in_sessions_adjust in Hy as (x & Hx & Hid & Hcap & Hsp).
    rewrite (is_active_on_session r Ha), Hid, Hcap, Hsp.
    specialize (Hsum x Hx).
    rewrite (Z.eqb_sym (Reservation.session_id r)). unfold ind.
    destruct (Session.id x =? Reservation.session_id r); lia.
Qed.

Lemma cnt_none {A : Type} (p : A -> bool) (l : list A) :
  (forall x, In x l -> p x = false) -> cnt p l = 0.
Proof.
  intros H. unfold cnt. rewrite filter_none by assumption. reflexivity.
Qed.

Lemma admin_sessions_cases d t cap notes db :
  snd (admin_sessions d t cap notes db) = db
  \/ exists notes',
      snd (admin_sessions d t cap notes db) = add_session d t cap cap notes' db.
Proof.
  unfold admin_sessions, commit.
  destruct (constraints_ok _); simpl; eauto.
Qed.

Lemma admin_sessions_accounted d t cap notes db :
  accounted db -> accounted (snd (admin_sessions d t cap notes db)).
Proof.
  intros Hacc.
  destruct (admin_sessions_cases d t cap notes db) as [->|(n & ->)];
    [exact Hacc|].
  destruct Hacc as [Href Hsum]. split.
  - intros r Hr. simpl. rewrite map_app. apply in_or_app. left.
    apply Href. exact Hr.
  - intros y Hy. simpl in Hy. apply in_app_or in Hy as [Hy|[<-|[]]].
    + rewrite (booked_reservations _ db) by reflexivity. apply Hsum. exact Hy.
    + rewrite (booked_reservations _ db) by reflexivity. simpl.
      rewrite booked_cnt, cnt_none; [lia|].
      intros r Hr. unfold on_session.
      destruct (Reservation.session_id r
                =? next_id (map Session.id (sessions db))) eqn:E;
        [|apply andb_false_r].
      apply Z.eqb_eq in E. exfalso.
      apply (next_id_fresh (map Session.id (sessions db))).
      rewrite <- E. apply Href. exact Hr.
Qed.

Lemma admin_members_accounted name credits db :
  accounted db -> accounted (snd (admin_members name credits db)).
Proof.
  intros Hacc. unfold admin_members, commit.
  repeat break_match; simpl; auto.
Qed.

Lemma sweep_accounted now db :
  stored db -> accounted db -> accounted (sweep now db).
Proof.
  intros Hst [Href Hsum].
  assert (Hsw : sweep now db = settled now db).
  { unfold sweep. rewrite (sweep_is_settled now db Hst). reflexivity. }
  rewrite Hsw.
  assert (Hids : map Session.id (sessions (settled now db))
                 = map Session.id (sessions db)).
  { simpl. rewrite map_map. apply map_ext. intros x.
    destruct (due now x); reflexivity. }
  split.
  - intros r Hr. rewrite Hids. simpl in Hr.
    apply in_map_iff in Hr as (r0 & <- & Hr0). specialize (Href r0 Hr0).
    unfold attend. destruct (_ && _); exact Href.
  - intros y Hy. simpl in Hy. apply in_map_iff in Hy as (x & <- & Hx).
    specialize (Hsum x Hx).
    assert (Hle : forall k, booked k (settled now db) <= booked k db).
    { intros k. rewrite !booked_cnt. simpl. apply cnt_map_le.
      intros r. unfold attend.
      destruct (is_active r && closes (to_close now db)
                                 (Reservation.session_id r)); auto.
      unfold on_session, is_active. simpl. discriminate. }
    destruct (due now x); simpl;
      pose proof (Hle (Session.id x)); lia.
Qed.

Lemma cnt_filter_le {A : Type} (p q : A -> bool) (l : list A) :
  cnt p (filter q l) <= cnt p l.
Proof.
  induction l as [|a l IH]; simpl.
  - lia.
  - destruct (q a); rewrite ?cnt_cons; unfold ind; destruct (p a); lia.
Qed.

(** Rows rewritten without a new active reservation keep the accounts. *)
Lemma accounted_rewritten db w (g : Reservation.t -> Reservation.t) :
  accounted db ->
  sessions w = sessions db ->
  reservations w = map g (reservations db) ->
  (forall x, Reservation.session_id (g x) = Reservation.session_id x) ->
  (forall x k, on_session k (g x) = true -> on_session k x = true) ->
  accounted w.
Proof.
  intros [Href Hsum] Hs Hr Hsid Hon. split.
  - intros r Hin. rewrite Hs. rewrite Hr in Hin.
    apply in_map_iff in Hin as (x & <- & Hx). rewrite Hsid. apply Href.
    exact Hx.
  - intros s Hin. rewrite Hs in Hin. specialize (Hsum s Hin).
    assert (booked (Session.id s) w <= booked (Session.id s) db).
    { rewrite !booked_cnt, Hr. apply cnt_map_le. intros x. apply Hon. }
    lia.
Qed.

Lemma refund_tables w r :
  sessions (refund_reservation w r) = sessions w
  /\ reservations (refund_reservation w r)
     = update_where (fun x => Reservation.id x =? Reservation.id r)
         (Reservation.with_status canceled) (reservations w).
Proof.
  unfold refund_reservation.
  destruct (find_member _ w) as [m|]; [|auto].
  destruct (status_eqb _ attended); auto.
Qed.

Lemma fold_refund_tables rs w :
  sessions (fold_left refund_reservation rs w) = sessions w
  /\ reservations (fold_left refund_reservation rs w)
     = map (fun x => if hits (fun _ => true) Reservation.id rs
                          (Reservation.id x)
                     then Reservation.with_status canceled x else x)
         (reservations w).
Proof.
  rewrite <- (fold_update_keys Reservation.id
                (Reservation.with_status canceled) (fun _ => true)
                Reservation.id rs) by reflexivity.
  revert w. induction rs as [|r rs IH]; intros w; simpl.
  - auto.
  - destruct (IH (refund_reservation w r)) as (A & B).
    destruct (refund_tables w r) as (A' & B').
    rewrite A, B, A', B'. auto.
Qed.

Lemma delete_session_accounted sid db :
  accounted db -> accounted (delete_session sid db).
Proof.
  intros [Href Hsum]. split.
  - intros r Hr. simpl in *. apply filter_In in Hr as [Hr Hne].
    specialize (Href r Hr). apply in_map_iff in Href as (s & Hs & Hin).
    apply in_map_iff. exists s. split; [exact Hs|].
    apply filter_In. split; [exact Hin|]. rewrite Hs. exact Hne.
  - intros s Hs. simpl in Hs. apply filter_In in Hs as [Hs _].
    specialize (Hsum s Hs).
    assert (booked (Session.id s) (delete_session sid db)
            <= booked (Session.id s) db).
    { rewrite !booked_cnt. simpl. apply cnt_filter_le. }
    lia.
Qed.

Lemma admin_delete_session_accounted now sid db :
  accounted db -> accounted (snd (admin_delete_session now sid db)).
Proof.
  intros H. unfold admin_delete_session.
  destruct (get_session sid db) as [s|]; [|exact H].
  destruct (Session.is_past now s); [exact H|].
  set (rs := reservations_of (Session.id s) db).
  assert (Hw : accounted (fold_left refund_reservation rs db)).
  { destruct (fold_refund_tables rs db) as (A & B).
    apply (accounted_rewritten db _ _ H A B).
    - intros x.
      destruct (hits (fun _ => true) Reservation.id rs (Reservation.id x));
        reflexivity.
    - intros x k.
      destruct (hits (fun _ => true) Reservation.id rs (Reservation.id x));
        [|auto].
      rewrite not_active_on_session by discriminate. discriminate. }
  destruct (commit db (fold_left refund_reservation rs db) SessionDeleted)
    as [o db1] eqn:E.
  apply commit_inv in E as [(-> & -> & _)|(-> & -> & _)]; [|exact H].
  unfold commit. destruct (constraints_ok _); simpl; [|exact Hw].
  apply delete_session_accounted. exact Hw.
Qed.

Lemma admin_members_delete_accounted mid db :
  accounted db -> accounted (snd (admin_members_delete mid db)).
Proof.
  intros H. unfold admin_members_delete, commit.
  repeat break_match; simpl; auto.
Qed.

Lemma admin_members_adjust_credits_accounted mid delta db :
  accounted db -> accounted (snd (admin_members_adjust_credits mid delta db)).
Proof.
  intros H. unfold admin_members_adjust_credits, commit.
  repeat break_match; simpl; auto.
Qed.

Lemma handle_accounted q db :
  stored db -> accounted db -> accounted (snd (handle q db)).
Proof.
  destruct q; simpl;
    auto using reserve_accounted, cancel_accounted, move_accounted,
      admin_cancel_accounted, admin_sessions_accounted,
      admin_members_accounted, admin_delete_session_accounted,
      admin_members_delete_accounted, admin_members_adjust_credits_accounted.
Qed.

Lemma step_accounted db e :
  stored db -> accounted db -> accounted (step db e).
Proof.
  intros Hst Hacc. unfold step, served.
  pose proof (sweep_stored (fst e) db Hst) as Hs.
  pose proof (sweep_accounted (fst e) db Hst Hacc) as Ha.
  unfold sweep in Hs, Ha.
  destruct (close_past_sessions_and_apply_attendance (fst e) db) as [o db1].
  simpl in Hs, Ha.
  destruct o; simpl; auto using handle_accounted.
Qed.

Lemma run_accounted trace db :
  stored db -> accounted db -> accounted (run trace db).
Proof.
  unfold run. revert db.
  induction trace as [|e trace IH]; simpl; intros db Hst Hacc.
  - exact Hacc.
  - apply IH; [apply step_stored | apply step_accounted]; assumption.
Qed.

Lemma reachable_accounted db : reachable db -> accounted db.
Proof.
  intros (trace & <-). apply run_accounted; [apply empty_stored|].
  split; simpl; intros ? [].
Qed.

(** On an accounted state an active reservation leaves room for the place
    it gives back. *)
Lemma room_to_give_back db r s :
  stored db -> accounted db ->
  In r (reservations db) -> Reservation.status_of r = active ->
  get_session (Reservation.session_id r) db = Some s ->
  0 <= Session.spots_left s /\ Session.spots_left s + 1 <= Session.capacity s.
Proof.
  intros (Hok & _) (_ & Hsum) Hr Ha Hs.
  apply get_session_id in Hs as [Hid Hin].
  pose proof (constraints_ok_bounds db Hok s Hin) as Hb.
  specialize (Hsum s Hin). rewrite Hid in Hsum.
  assert (1 <= booked (Reservation.session_id r) db).
  { rewrite booked_cnt. apply (cnt_in _ _ r Hr).
    rewrite (is_active_on_session r Ha). apply Z.eqb_refl. }
  lia.
Qed.

Lemma commit_ok db w ok :
  constraints_ok w = true -> commit db w ok = (ok, w).
Proof. unfold commit. intros ->. reflexivity. Qed.


Lemma move_commits now user rid method db :
  stored db -> accounted db ->
  fst (move now user rid method db) <> IntegrityError.
Proof.
  intros Hst Hacc. unfold move.
  destruct (get_reservation rid db) as [r|] eqn:Hr; [|discriminate].
  destruct (String.eqb _ _); [|discriminate]. cbn [negb orb].
  destruct (negb (status_eqb _ _)) eqn:Ha; [discriminate|].
  destruct method as [|tid]; [discriminate|].
  destruct (get_session tid db) as [tgt|] eqn:Ht; [|discriminate].
  destruct (Session.is_past now tgt); [discriminate|].
  destruct (Session.spots_left tgt <=? 0) eqn:Hf; [discriminate|].
  change (get_session (Reservation.session_id r)
            (set_status (Reservation.id r) moved db))
    with (get_session (Reservation.session_id r) db).
  destruct (get_session (Reservation.session_id r) db) as [src|] eqn:Hs;
    [|discriminate].
  apply negb_false_iff, status_eqb_eq in Ha. apply Z.leb_gt in Hf.
  destruct (get_reservation_id _ _ _ Hr) as [_ Hin].
  destruct (room_to_give_back db r src Hst Hacc Hin Ha Hs).
  destruct (get_session_id _ _ _ Hs) as [Hid _].
  destruct (get_session_id _ _ _ Ht) as [Htid Htin].
  rewrite Hid, Htid.
  destruct Hst as (Hok & N1 & _).
  pose proof (constraints_ok_bounds db Hok tgt Htin) as Hbt.
  set (w1 := set_status (Reservation.id r) moved db).
  set (w2 := adjust_spots (Reservation.session_id r) 1 w1).
  assert (Hok2 : constraints_ok w2 = true).
  { apply (constraints_ok_adjust _ 1 w1 src); auto. lia. }
  rewrite commit_ok; [discriminate|].
  set (w3 := add_reservation (Reservation.user_name r) tid active w2).
  assert (Hget : get_session tid w3
                 = if tid =? Reservation.session_id r
                   then option_map
                          (fun s => Session.with_spots_left
                                      (Session.spots_left s + 1) s)
                          (get_session tid db)
                   else get_session tid db).
  { change (get_session tid w3) with (get_session tid w2).
    unfold w2. rewrite get_session_adjust. reflexivity. }
  destruct (tid =? Reservation.session_id r) eqn:E.
  - apply Z.eqb_eq in E. rewrite Ht in Hget. simpl in Hget.
    eapply (constraints_ok_adjust tid (-1) w3); eauto.
    + change (sessions w3) with (sessions w2). unfold w2.
      rewrite session_ids_adjust. exact N1.
    + simpl. lia.
  - rewrite Ht in Hget.
    eapply (constraints_ok_adjust tid (-1) w3); eauto.
    + change (sessions w3) with (sessions w2). unfold w2.
      rewrite session_ids_adjust. exact N1.
    + lia.
Qed.




Lemma find_key_exists {A : Type} (key : A -> Z) (k : Z) (l : list A) :
  In k (map key l) -> exists x, find (fun y => key y =? k) l = Some x.
Proof.
  induction l as [|a l IH]; simpl; intros H.
  - contradiction.
  - destruct (key a =? k) eqn:E; [eauto|].
    destruct H as [H|H]; [apply Z.eqb_neq in E; contradiction | auto].
Qed.


Lemma commit_outcome db w ok :
  fst (commit db w ok) = ok \/ fst (commit db w ok) = IntegrityError.
Proof. unfold commit. destruct (constraints_ok w); auto. Qed.

(** In a state the application reaches, a move of the caller's active
    reservation to a session that is not past and has a free place
    commits. *)
Lemma move_goes_through now user rid tid db r tgt :
  reachable db ->
  get_reservation rid db = Some r ->
  Reservation.user_name r = user ->
  Reservation.status_of r = active ->
  get_session tid db = Some tgt ->
  Session.is_past now tgt = false ->
  0 < Session.spots_left tgt ->
  fst (move now user rid (POST tid) db) = Moved.
Proof.
  intros Hreach Hr Hu Ha Ht Hp Hpos.
  pose proof (reachable_stored db Hreach) as Hst.
  pose proof (reachable_accounted db Hreach) as Hacc.
  pose proof (move_commits now user rid (POST tid) db Hst Hacc) as Hne.
  destruct (get_reservation_id _ _ _ Hr) as [_ Hin].
  destruct (find_key_exists Session.id (Reservation.session_id r)
              (sessions db)) as (src & Hs).
  { apply (proj1 Hacc). exact Hin. }
  revert Hne. unfold move.
  rewrite Hr, Hu, Ha, String.eqb_refl. cbn [status_eqb negb orb].
  rewrite Ht, Hp. apply Z.leb_gt in Hpos. rewrite Hpos.
  change (get_session (Reservation.session_id r)
            (set_status (Reservation.id r) moved db))
    with (get_session (Reservation.session_id r) db).
  change (get_session (Reservation.session_id r) db = Some src) in Hs.
  rewrite Hs. intros Hne.
  match goal with
  | |- fst (commit ?d ?w ?o) = _ =>
      destruct (commit_outcome d w o) as [E|E]; [exact E | contradiction]
  end.
Qed.

Lemma find_map_stable {A : Type} (p : A -> bool) (g : A -> A) (l : list A) :
  (forall x, p (g x) = p x) ->
  find p (map g l) = option_map g (find p l).
Proof.
  intros Hg. induction l as [|a l IH]; simpl.
  - reflexivity.
  - rewrite Hg. destruct (p a); [reflexivity | exact IH].
Qed.

Lemma spots_settled now db k : spots k (settled now db) = spots k db.
Proof.
  unfold spots, get_session. simpl.
  rewrite find_map_stable.
  - destruct (find _ (sessions db)) as [s|]; [|reflexivity]. simpl.
    destruct (due now s); reflexivity.
  - intros x. destruct (due now x); reflexivity.
Qed.

Lemma get_reservation_settled now db k :
  get_reservation k (settled now db)
  = option_map (attend (to_close now db)) (get_reservation k db).
Proof.
  unfold get_reservation. simpl. apply find_map_stable.
  intros x. unfold attend. destruct (_ && _); reflexivity.
Qed.

Lemma reservation_keys_settled now db :
  new_reservation_id (settled now db) = new_reservation_id db.
Proof.
  unfold new_reservation_id. simpl. rewrite map_map. f_equal.
  apply map_ext. intros x. unfold attend. destruct (_ && _); reflexivity.
Qed.

(** On a stored state the sweep goes through and the handler runs on the
    settled state. *)
Lemma served_on_stored now0 handler db :
  stored db -> served now0 handler db = handler (settled now0 db).
Proof.
  intros Hst. unfold served. rewrite (sweep_is_settled now0 db Hst).
  reflexivity.
Qed.

Lemma settled_stored now db : stored db -> stored (settled now db).
Proof.
  intros Hst. pose proof (sweep_stored now db Hst) as H.
  unfold sweep in H. rewrite (sweep_is_settled now db Hst) in H. exact H.
Qed.

(** * The claims *)




(** C4.  The sweep is idempotent: at a fixed clock reading, sweeping the
    state a sweep stored returns that state.  On a state that satisfies
    the table constraints the second sweep finds no session to close and
    returns before any write. *)
Theorem sweep_idempotent (now : Z) (db : store) :
  sweep now (sweep now db) = sweep now db
  /\ (constraints_ok db = true ->
      to_close now (sweep now db) = []
      /\ close_past_sessions_and_apply_attendance now (sweep now db)
         = (Pass, sweep now db)).
Proof.
  assert (Hcases : sweep now db = db \/ to_close now (sweep now db) = []).
  { unfold sweep, close_past_sessions_and_apply_attendance.
    destruct (to_close now db) as [|c cs] eqn:E.
    - left. reflexivity.
    - rewrite <- E. unfold commit.
      destruct (constraints_ok _); simpl.
      + right. apply (nothing_due_after now db). reflexivity.
      + left. reflexivity. }
  assert (Hrun : to_close now (sweep now db) = [] ->
                 close_past_sessions_and_apply_attendance now (sweep now db)
                 = (Pass, sweep now db)).
  { intros Hnone.
    unfold close_past_sessions_and_apply_attendance at 1. rewrite Hnone.
    reflexivity. }
  split.
  - destruct Hcases as [Hsame|Hnone].
    + rewrite Hsame. exact Hsame.
    + unfold sweep at 1. rewrite (Hrun Hnone). reflexivity.
  - intros Hok.
    assert (Hnone : to_close now (sweep now db) = []).
    { unfold sweep, close_past_sessions_and_apply_attendance.
      destruct (to_close now db) as [|c cs] eqn:E.
      - simpl. exact E.
      - rewrite <- E. unfold commit.
        rewrite constraints_ok_closed, Hok. simpl.
        apply (nothing_due_after now db). reflexivity. }
    auto.
Qed.



(** C7.  When a reserve commits and a cancel of the reservation it created
    commits after it, the sessions table, and with it the free places of
    the session, is what it was before the reserve.  The cancel does commit
    when its caller is the owner, the session starts at least 24 hours
    after the clock reading of the first test and is not past at the
    second.  The same holds for the two requests as the application serves
    them, each behind its sweep. *)
Theorem reserve_then_cancel :
  (forall now user sid db db1 now1 now1' user',
      reserve now user sid db = (Reserved, db1) ->
      (forall db2,
          cancel now1 now1' user' (new_reservation_id db) db1
          = (Canceled, db2) ->
          spots sid db2 = spots sid db
          /\ sessions db2 = sessions db
          /\ user' = Text.strip user)
      /\ (forall s,
            stored db ->
            get_session sid db = Some s ->
            user' = Text.strip user ->
            Clock.hours 24
            <= Clock.combine (Session.date s) (Session.time s) - now1 ->
            Session.is_past now1' s = false ->
            exists db2,
              cancel now1 now1' user' (new_reservation_id db) db1
              = (Canceled, db2)))
  /\ (forall now0 now user sid db now0' now1 now1' user',
        stored db ->
        fst (served now0 (reserve now user sid) db) = Reserved ->
        fst (served now0'
               (cancel now1 now1' user' (new_reservation_id db))
               (snd (served now0 (reserve now user sid) db))) = Canceled ->
        spots sid
          (snd (served now0'
                  (cancel now1 now1' user' (new_reservation_id db))
                  (snd (served now0 (reserve now user sid) db))))
        = spots sid db).
Proof.
  split.
  { intros now user sid db db1 now1 now1' user'.
    intros Hres.
    pose proof (reserve_stored now user sid db) as Hst1. rewrite Hres in Hst1.
    apply reserve_inv in Hres
      as (s & m & Hs & _ & _ & Hpos & _ & _ & _ & -> & Hok1).
    set (db1 := adjust_spots sid (-1) (add_reservation user sid active db)) in *.
    assert (Hnew : get_reservation (new_reservation_id db) db1
                   = Some (Reservation.mk (new_reservation_id db)
                             (Text.strip user) sid active)).
    { apply (get_new_reservation user sid active db). }
    split.
    - intros db2 Hc. apply cancel_inv in Hc
        as (r & s1 & Hr & Hu & _ & _ & _ & _ & -> & _).
      rewrite Hnew in Hr. inv Hr. simpl.
      assert (Hsess : sessions (adjust_spots sid 1
                         (set_status (new_reservation_id db) canceled db1))
                      = sessions db).
      { change (sessions (adjust_spots sid (- (-1)) (adjust_spots sid (-1) db))
                = sessions db).
        apply adjust_spots_back. }
      split_ands.
      + unfold spots, get_session. rewrite Hsess. reflexivity.
      + exact Hsess.
      + reflexivity.
    - intros s' Hst Hs' Hu H24 Hpast.
      rewrite Hs in Hs'. inv Hs'. specialize (Hst1 Hst). simpl in Hst1.
      assert (Hs1 : get_session sid db1
                    = Some (Session.with_spots_left
                              (Session.spots_left s' + -1) s')).
      { unfold db1. rewrite get_session_adjust, Z.eqb_refl.
        change (get_session sid (add_reservation user sid active db))
          with (get_session sid db).
        rewrite Hs. reflexivity. }
      unfold cancel. rewrite Hnew. simpl Reservation.user_name.
      rewrite String.eqb_refl. simpl Reservation.status_of.
      cbn [status_eqb negb]. simpl Reservation.session_id. rewrite Hs1.
      change (Session.date (Session.with_spots_left _ s')) with (Session.date s').
      change (Session.time (Session.with_spots_left _ s')) with (Session.time s').
      apply Z.ltb_ge in H24. rewrite H24.
      change (Session.is_past now1' (Session.with_spots_left
                                       (Session.spots_left s' + -1) s'))
        with (Session.is_past now1' s').
      rewrite Hpast. unfold commit.
      simpl Reservation.id. simpl Session.id.
      destruct (get_session_id _ _ _ Hs) as [Hid Hin]. rewrite Hid.
      destruct Hst1 as (_ & Hnd1 & _).
      rewrite (constraints_ok_adjust sid 1
                 (set_status (new_reservation_id db) canceled db1)
                 (Session.with_spots_left (Session.spots_left s' + -1) s'));
        eauto.
      destruct Hst as (Hok & _).
      pose proof (constraints_ok_bounds db Hok s' Hin). simpl. lia. }
  intros now0 now user sid db now0' now1 now1' user'.
  intros Hst H1 H2.
  rewrite (served_on_stored now0 _ db Hst) in *.
  set (db0 := settled now0 db) in *.
  assert (Hst0 : stored db0) by (apply settled_stored; exact Hst).
  destruct (reserve now user sid db0) as [o db1] eqn:E1.
  simpl in H1, H2 |- *. subst o.
  assert (Hst1 : stored db1).
  { pose proof (reserve_stored now user sid db0 Hst0) as H.
    rewrite E1 in H. exact H. }
  rewrite (served_on_stored now0' _ db1 Hst1) in *.
  destruct (reserve_spots _ _ _ _ _ E1) as (n & Hn0 & Hn1 & _).
  apply reserve_inv in E1 as (_ & _ & _ & _ & _ & _ & _ & _ & _ & E1 & _).
  assert (Hid : new_reservation_id db = new_reservation_id db0)
    by (symmetry; apply reservation_keys_settled).
  rewrite Hid in *.
  assert (Hnew : get_reservation (new_reservation_id db0) db1
                 = Some (Reservation.mk (new_reservation_id db0)
                           (Text.strip user) sid active)).
  { rewrite E1. apply (get_new_reservation user sid active db0). }
  destruct (cancel now1 now1' user' (new_reservation_id db0)
              (settled now0' db1)) as [o db2] eqn:E2.
  simpl in H2 |- *. subst o.
  apply cancel_inv in E2 as (r & s & Hr & _ & _ & _ & _ & _ & -> & _).
  rewrite get_reservation_settled, Hnew in Hr. simpl in Hr.
  assert (Hsid : Reservation.session_id r = sid).
  { inv Hr. unfold attend. destruct (_ && _); reflexivity. }
  rewrite Hsid, spots_adjust, Z.eqb_refl.
  change (spots sid (set_status (new_reservation_id db0) canceled
                       (settled now0' db1)))
    with (spots sid (settled now0' db1)).
  rewrite spots_settled, Hn1. unfold db0 in Hn0.
  rewrite spots_settled in Hn0. rewrite Hn0. simpl. f_equal. lia.
Qed.

(** C8.  A reserve, cancel or move that does not commit, whatever the
    reason, leaves the three tables as they were; behind the sweep that
    opens the request, the stored state is the one the sweep left.  The
    rule violations are among these failures.  A move to a target without
    a free place is refused as TargetFull with the store untouched. *)
Theorem failures_store_nothing :
  (forall o, domain_violation o = true -> succeeded o = false)
  /\ (forall now user sid db,
        succeeded (fst (reserve now user sid db)) = false ->
        snd (reserve now user sid db) = db)
  /\ (forall now now' user rid db,
        succeeded (fst (cancel now now' user rid db)) = false ->
        snd (cancel now now' user rid db) = db)
  /\ (forall now user rid method db,
        succeeded (fst (move now user rid method db)) = false ->
        snd (move now user rid method db) = db)
  /\ (forall now0 q db,
        match q with
        | ReqReserve _ _ _ | ReqCancel _ _ _ _ | ReqMove _ _ _ _ => True
        | _ => False
        end ->
        succeeded (fst (served now0 (handle q) db)) = false ->
        snd (served now0 (handle q) db) = sweep now0 db)
  /\ (forall now user rid tid db r tgt,
        get_reservation rid db = Some r ->
        Reservation.user_name r = user ->
        Reservation.status_of r = active ->
        get_session tid db = Some tgt ->
        Session.is_past now tgt = false ->
        Session.spots_left tgt <= 0 ->
        move now user rid (POST tid) db = (TargetFull, db)).
Proof.
  split_ands.
  - intros o. destruct o; simpl; congruence.
  - exact reserve_failure.
  - exact cancel_failure.
  - exact move_failure.
  - intros now0 q db Hq. apply served_failure.
    destruct q; simpl; try contradiction;
      auto using reserve_failure, cancel_failure, move_failure.
  - intros now user rid tid db r tgt Hr Hu Ha Ht Hp Hf.
    unfold move. rewrite Hr, Hu, Ha, String.eqb_refl. simpl.
    rewrite Ht, Hp. apply Z.leb_le in Hf. rewrite Hf. reflexivity.
Qed.

(** C9.  For an active reservation of the caller whose session has started
    when the 24 hour test reads the clock, that test fails the cancel with
    TooLateToCancel and the store untouched.  Whenever the second clock
    reading is less than 24 hours after the first, no cancel ends in
    SessionPast. *)
Theorem cancel_past_is_too_late :
  (forall now now' user rid db r s,
      get_reservation rid db = Some r ->
      Reservation.user_name r = user ->
      Reservation.status_of r = active ->
      get_session (Reservation.session_id r) db = Some s ->
      Session.is_past now s = true ->
      cancel now now' user rid db = (TooLateToCancel, db))
  /\ (forall now now' user rid db,
        now' - now < Clock.hours 24 ->
        fst (cancel now now' user rid db) <> SessionPast).
Proof.
  split.
  - intros now now' user rid db r s Hr Hu Ha Hs Hp.
    unfold cancel. rewrite Hr, Hu, Ha, String.eqb_refl.
    cbn [status_eqb negb]. rewrite Hs.
    unfold Session.is_past in Hp. apply Z.ltb_lt in Hp.
    assert ((Clock.combine (Session.date s) (Session.time s) - now
             <? Clock.hours 24) = true) as ->.
    { apply Z.ltb_lt. unfold Clock.hours. lia. }
    reflexivity.
  - intros now now' user rid db Hclock. unfold cancel.
    destruct (get_reservation rid db) as [r|]; [|discriminate].
    destruct (negb _); [discriminate|].
    destruct (negb _); [discriminate|].
    destruct (get_session _ db) as [s|]; [|discriminate].
    destruct (_ - now <? Clock.hours 24) eqn:E; [discriminate|].
    apply Z.ltb_ge in E.
    assert (Session.is_past now' s = false) as ->.
    { unfold Session.is_past. apply Z.ltb_ge. lia. }
    unfold commit. destruct (constraints_ok _); discriminate.
Qed.

(** C10.  Move does not test for an existing booking.  In a state the
    application reaches, a member holding an active reservation on each of
    two sessions moves the first onto the second: the move commits and the
    member then holds two active reservations on that session, where a
    reserve is refused as AlreadyBooked before and after.  A move onto the
    source session itself commits as well; it replaces the reservation by a
    new one, and in the state with two bookings it keeps both. *)
Theorem move_allows_double_booking :
  exists (db db' db'' db3 : store) (now : Z) (user : string)
         (rid tid : Z) (r : Reservation.t),
    reachable db /\ reachable db'
    /\ get_reservation rid db = Some r
    /\ Reservation.user_name r = user
    /\ Reservation.status_of r = active
    /\ Reservation.session_id r <> tid
    /\ List.length (active_bookings user tid db) = 1%nat
    /\ reserve now user tid db = (AlreadyBooked, db)
    /\ move now user rid (POST tid) db = (Moved, db')
    /\ List.length (active_bookings user tid db') = 2%nat
    /\ reserve now user tid db' = (AlreadyBooked, db')
    /\ move now user rid (POST (Reservation.session_id r)) db = (Moved, db'')
    /\ List.length (active_bookings user (Reservation.session_id r) db'')
       = 1%nat
    /\ (exists r2,
           get_reservation 2 db' = Some r2
           /\ Reservation.session_id r2 = tid
           /\ Reservation.status_of r2 = active
           /\ move now user 2 (POST tid) db' = (Moved, db3)
           /\ List.length (active_bookings user tid db3) = 2%nat).
Proof.
  exists double_state,
    (snd (move 0 "Ada Lovelace" 1 (POST 2) double_state)),
    (snd (move 0 "Ada Lovelace" 1 (POST 1) double_state)),
    (snd (move 0 "Ada Lovelace" 2 (POST 2)
            (snd (move 0 "Ada Lovelace" 1 (POST 2) double_state)))),
    0, "Ada Lovelace"%string, 1, 2,
    (Reservation.mk 1 "Ada Lovelace" 1 active).
  split_ands.
  - exists double_trace. reflexivity.
  - exists (double_trace ++ [(0, ReqMove 0 "Ada Lovelace" 1 (POST 2))]).
    vm_compute. reflexivity.
  - vm_compute. reflexivity.
  - reflexivity.
  - reflexivity.
  - simpl. lia.
  - vm_compute. reflexivity.
  - vm_compute. reflexivity.
  - vm_compute. reflexivity.
  - vm_compute. reflexivity.
  - vm_compute. reflexivity.
  - vm_compute. reflexivity.
  - vm_compute. reflexivity.
  - exists (Reservation.mk 2 "Ada Lovelace" 2 active).
    split_ands; vm_compute; reflexivity.
Qed.

(** * The claims on the studio *)

Lemma studio_stored : stored studio_state.
Proof. apply reachable_stored. exists studio_trace. reflexivity. Qed.

Lemma double_stored : stored double_state.
Proof. apply reachable_stored. exists double_trace. reflexivity. Qed.






(** C4 on the studio: a second sweep of day 20 finds nothing to close. *)
Lemma sweep_idempotent_witness :
  constraints_ok double_state = true
  /\ sweep late (sweep late double_state) = sweep late double_state
  /\ to_close late (sweep late double_state) = []
  /\ close_past_sessions_and_apply_attendance late (sweep late double_state)
     = (Pass, sweep late double_state).
Proof.
  assert (Hok : constraints_ok double_state = true).
  { vm_compute. reflexivity. }
  split; [exact Hok|].
  split; [exact (proj1 (sweep_idempotent late double_state))|].
  exact (proj2 (sweep_idempotent late double_state) Hok).
Defined.



(** C7 on the studio: the first member reserves the first session and
    cancels ten days ahead. *)
Lemma reserve_then_cancel_witness :
  reserve 0 "Ada Lovelace" 1 studio_state
  = (Reserved, snd (reserve 0 "Ada Lovelace" 1 studio_state))
  /\ cancel 0 0 "Ada Lovelace" (new_reservation_id studio_state)
       (snd (reserve 0 "Ada Lovelace" 1 studio_state))
     = (Canceled,
        snd (cancel 0 0 "Ada Lovelace" (new_reservation_id studio_state)
               (snd (reserve 0 "Ada Lovelace" 1 studio_state))))
  /\ spots 1 (snd (cancel 0 0 "Ada Lovelace" (new_reservation_id studio_state)
                     (snd (reserve 0 "Ada Lovelace" 1 studio_state))))
     = spots 1 studio_state
  /\ (exists db2,
         cancel 0 0 "Ada Lovelace" (new_reservation_id studio_state)
           (snd (reserve 0 "Ada Lovelace" 1 studio_state))
         = (Canceled, db2))
  /\ spots 1
       (snd (served 0
               (cancel 0 0 "Ada Lovelace" (new_reservation_id studio_state))
               (snd (served 0 (reserve 0 "Ada Lovelace" 1) studio_state))))
     = spots 1 studio_state.
Proof.
  assert (H1 : reserve 0 "Ada Lovelace" 1 studio_state
               = (Reserved, snd (reserve 0 "Ada Lovelace" 1 studio_state))).
  { vm_compute. reflexivity. }
  assert (H2 : cancel 0 0 "Ada Lovelace" (new_reservation_id studio_state)
                 (snd (reserve 0 "Ada Lovelace" 1 studio_state))
               = (Canceled,
                  snd (cancel 0 0 "Ada Lovelace"
                         (new_reservation_id studio_state)
                         (snd (reserve 0 "Ada Lovelace" 1 studio_state))))).
  { vm_compute. reflexivity. }
  destruct (proj1 reserve_then_cancel 0 "Ada Lovelace"%string 1 studio_state
              _ 0 0 "Ada Lovelace"%string H1) as (Hback & Hgo).
  split; [exact H1|]. split; [exact H2|].
  split; [exact (proj1 (Hback _ H2))|].
  split.
  - apply (Hgo (Session.mk 1 10 36000000000 6 6 (Some "Mat"%string) false)).
    + exact studio_stored.
    + vm_compute. reflexivity.
    + vm_compute. reflexivity.
    + vm_compute. discriminate.
    + vm_compute. reflexivity.
  - apply (proj2 reserve_then_cancel 0 0 "Ada Lovelace"%string 1 studio_state
             0 0 0 "Ada Lovelace"%string studio_stored).
    + vm_compute. reflexivity.
    + vm_compute. reflexivity.
Defined.

(** C8 on the studio: the member without credits fails to reserve, and a
    move to the session without places is refused; nothing is stored. *)
Lemma failures_store_nothing_witness :
  succeeded (fst (reserve 0 "Grace Hopper" 1 studio_state)) = false
  /\ snd (reserve 0 "Grace Hopper" 1 studio_state) = studio_state
  /\ snd (served 0 (handle (ReqReserve 0 "Grace Hopper" 1)) studio_state)
     = sweep 0 studio_state
  /\ move 0 "Ada Lovelace" 1 (POST 3) double_state
     = (TargetFull, double_state).
Proof.
  destruct failures_store_nothing as (_ & Hres & _ & _ & Hserved & Hfull).
  assert (H : succeeded (fst (reserve 0 "Grace Hopper" 1 studio_state))
              = false).
  { vm_compute. reflexivity. }
  split; [exact H|].
  split; [exact (Hres _ _ _ _ H)|].
  split.
  - apply (Hserved 0 (ReqReserve 0 "Grace Hopper" 1) studio_state).
    + exact I.
    + vm_compute. reflexivity.
  - apply (Hfull 0 "Ada Lovelace"%string 1 3 double_state
             (Reservation.mk 1 "Ada Lovelace" 1 active)
             (Session.mk 3 10 72000000000 0 0 None false)).
    + vm_compute. reflexivity.
    + reflexivity.
    + reflexivity.
    + vm_compute. reflexivity.
    + vm_compute. reflexivity.
    + simpl. lia.
Defined.

(** C9 on the studio: a cancel one microsecond after the first session
    started. *)
Lemma cancel_past_is_too_late_witness :
  Session.is_past 900000000001
    (Session.mk 1 10 36000000000 6 5 (Some "Mat"%string) false) = true
  /\ cancel 900000000001 900000000001 "Ada Lovelace" 1 double_state
     = (TooLateToCancel, double_state)
  /\ fst (cancel 0 1 "Ada Lovelace" 1 double_state) <> SessionPast.
Proof.
  destruct cancel_past_is_too_late as (Hlate & Hnever).
  split; [vm_compute; reflexivity|].
  split.
  - apply (Hlate 900000000001 900000000001 "Ada Lovelace"%string 1
             double_state
             (Reservation.mk 1 "Ada Lovelace" 1 active)
             (Session.mk 1 10 36000000000 6 5 (Some "Mat"%string) false)).
    + vm_compute. reflexivity.
    + reflexivity.
    + reflexivity.
    + vm_compute. reflexivity.
    + vm_compute. reflexivity.
  - apply Hnever. vm_compute. reflexivity.
Defined.

(** * Further properties *)

(** ** Names: [strip], [split] and [canonical] *)

Lemma lstrip_fixed s : head_ok s = true -> Text.lstrip s = s.
Proof.
  destruct s as [|c s]; simpl; intros H.
  - reflexivity.
  - apply negb_true_iff in H. rewrite H. reflexivity.
Qed.

Lemma rstrip_cons c s :
  Text.rstrip (String c s)
  = match Text.rstrip s with
    | EmptyString =>
        if Text.is_space c then EmptyString else String c EmptyString
    | t => String c t
    end.
Proof. reflexivity. Qed.

Lemma rstrip_fixed s : last_ok s = true -> Text.rstrip s = s.
Proof.
  induction s as [|c s IH]; intros H.
  - reflexivity.
  - destruct s as [|c' s].
    + simpl in *. apply negb_true_iff in H. rewrite H. reflexivity.
    + change (last_ok (String c (String c' s))) with (last_ok (String c' s)) in H.
      rewrite rstrip_cons, (IH H). reflexivity.
Qed.

Lemma head_ok_lstrip s : head_ok (Text.lstrip s) = true.
Proof.
  induction s as [|c s IH]; simpl.
  - reflexivity.
  - destruct (Text.is_space c) eqn:E; [exact IH|]. simpl. rewrite E. reflexivity.
Qed.

Lemma last_ok_rstrip s : last_ok (Text.rstrip s) = true.
Proof.
  induction s as [|c s IH].
  - reflexivity.
  - rewrite rstrip_cons. destruct (Text.rstrip s) as [|c' t] eqn:E.
    + destruct (Text.is_space c) eqn:Ec; simpl; [reflexivity|].
      rewrite Ec. reflexivity.
    + exact IH.
Qed.

Lemma head_ok_rstrip s : head_ok s = true -> head_ok (Text.rstrip s) = true.
Proof.
  destruct s as [|c s]; intros H.
  - reflexivity.
  - rewrite rstrip_cons. simpl in H.
    destruct (Text.rstrip s); [|exact H].
    destruct (Text.is_space c) eqn:Ec; [reflexivity|].
    simpl. rewrite Ec. reflexivity.
Qed.

Lemma strip_edges s :
  head_ok (Text.strip s) = true /\ last_ok (Text.strip s) = true.
Proof.
  unfold Text.strip. split.
  - apply head_ok_rstrip. apply head_ok_lstrip.
  - apply last_ok_rstrip.
Qed.

Lemma strip_fixed s :
  head_ok s = true -> last_ok s = true -> Text.strip s = s.
Proof.
  intros H1 H2. unfold Text.strip. rewrite (lstrip_fixed s H1).
  apply rstrip_fixed. exact H2.
Qed.

Lemma strip_idempotent s : Text.strip (Text.strip s) = Text.strip s.
Proof. apply strip_fixed; apply strip_edges. Qed.

Lemma no_space_of_list l :
  no_space (string_of_list_ascii l)
  = forallb (fun c => negb (Text.is_space c)) l.
Proof.
  induction l as [|c l IH]; simpl; [reflexivity | rewrite IH; reflexivity].
Qed.

Lemma forallb_rev {A : Type} (p : A -> bool) (l : list A) :
  forallb p (rev l) = forallb p l.
Proof.
  induction l as [|a l IH]; simpl.
  - reflexivity.
  - rewrite forallb_app, IH. simpl. rewrite andb_true_r. apply andb_comm.
Qed.

Lemma flushed_word (cur : list ascii) :
  cur <> [] ->
  forallb (fun c => negb (Text.is_space c)) cur = true ->
  is_word (string_of_list_ascii (rev cur)) = true.
Proof.
  intros Hne Hcur. unfold is_word.
  rewrite no_space_of_list, forallb_rev, Hcur, andb_true_r.
  destruct (rev cur) as [|c l] eqn:E; [|reflexivity].
  exfalso. apply Hne. rewrite <- (rev_involutive cur), E. reflexivity.
Qed.

Lemma split_aux_words s :
  forall cur,
    forallb (fun c => negb (Text.is_space c)) cur = true ->
    Forall (fun w => is_word w = true) (Text.split_aux cur s).
Proof.
  induction s as [|c s IH]; intros cur Hcur.
  - simpl. destruct cur as [|a cur]; [constructor|].
    constructor; [|constructor]. apply flushed_word; [discriminate | exact Hcur].
  - cbn [Text.split_aux]. destruct (Text.is_space c) eqn:Ec.
    + apply Forall_app. split; [|apply IH; reflexivity].
      destruct cur as [|a cur]; [constructor|].
      constructor; [|constructor].
      apply flushed_word; [discriminate | exact Hcur].
    + apply IH. simpl. rewrite Ec, Hcur. reflexivity.
Qed.

Lemma split_words s : Forall (fun w => is_word w = true) (Text.split s).
Proof. apply split_aux_words. reflexivity. Qed.

Lemma split_aux_prefix w :
  no_space w = true ->
  forall cur s,
    Text.split_aux cur (w ++ s)
    = Text.split_aux (rev (list_ascii_of_string w) ++ cur) s.
Proof.
  induction w as [|c w IH]; intros Hw cur s.
  - reflexivity.
  - simpl in Hw. apply andb_prop in Hw as [Hc Hw].
    apply negb_true_iff in Hc.
    change (String c w ++ s)%string with (String c (w ++ s)).
    cbn [Text.split_aux]. rewrite Hc, (IH Hw). simpl.
    rewrite <- app_assoc. reflexivity.
Qed.

Lemma split_aux_word w :
  is_word w = true -> Text.split_aux (rev (list_ascii_of_string w)) EmptyString = [w].
Proof.
  intros Hw. apply andb_prop in Hw as [Hne _]. simpl.
  destruct (rev (list_ascii_of_string w)) as [|a l] eqn:E.
  - exfalso. apply negb_true_iff, String.eqb_neq in Hne. apply Hne.
    rewrite <- (string_of_list_ascii_of_string w).
    rewrite <- (rev_involutive (list_ascii_of_string w)), E. reflexivity.
  - rewrite <- E, rev_involutive, string_of_list_ascii_of_string. reflexivity.
Qed.

Lemma append_empty (s : string) : (s ++ EmptyString)%string = s.
Proof. induction s as [|c s IH]; simpl; [reflexivity | rewrite IH; reflexivity]. Qed.

(** Splitting what [join_space] made of words gives the words back. *)
Lemma split_join ws :
  Forall (fun w => is_word w = true) ws ->
  Text.split (Text.join_space ws) = ws.
Proof.
  unfold Text.split. induction ws as [|w ws IH]; intros H.
  - reflexivity.
  - inversion H as [|? ? Hw Hws]; subst.
    pose proof Hw as Hw'. apply andb_prop in Hw' as [_ Hns].
    destruct ws as [|w2 ws].
    + simpl. rewrite <- (append_empty w) at 1.
      rewrite (split_aux_prefix w Hns), app_nil_r.
      apply split_aux_word. exact Hw.
    + change (Text.join_space (w :: w2 :: ws))
        with (w ++ String " " (Text.join_space (w2 :: ws)))%string.
      rewrite (split_aux_prefix w Hns), app_nil_r.
      cbn [Text.split_aux].
      change (Text.is_space " ") with true. cbv iota.
      rewrite (IH Hws).
      pose proof (split_aux_word w Hw) as Hflush. simpl in Hflush.
      destruct (rev (list_ascii_of_string w)); [discriminate|].
      rewrite Hflush. reflexivity.
Qed.

Lemma last_ok_cons c s :
  s <> EmptyString -> last_ok (String c s) = last_ok s.
Proof. destruct s; [congruence | reflexivity]. Qed.

Lemma last_ok_app a b :
  b <> EmptyString -> last_ok (a ++ b) = last_ok b.
Proof.
  intros Hb. induction a as [|c a IH]; [reflexivity|].
  change (String c a ++ b)%string with (String c (a ++ b)).
  rewrite last_ok_cons; [exact IH|].
  destruct a; simpl; [exact Hb | discriminate].
Qed.

Lemma no_space_last_ok w : no_space w = true -> last_ok w = true.
Proof.
  induction w as [|c w IH]; intros H; [reflexivity|].
  simpl in H. apply andb_prop in H as [Hc Hw].
  destruct w; [exact Hc | exact (IH Hw)].
Qed.

Lemma word_nonempty w : is_word w = true -> w <> EmptyString.
Proof.
  intros H. apply andb_prop in H as [H _].
  apply negb_true_iff, String.eqb_neq in H. exact H.
Qed.

Lemma word_head_ok w : is_word w = true -> head_ok w = true.
Proof.
  intros H. apply andb_prop in H as [_ H].
  destruct w; [reflexivity|]. simpl in *. apply andb_prop in H. tauto.
Qed.

Lemma join_words_nonempty w ws :
  is_word w = true -> Text.join_space (w :: ws) <> EmptyString.
Proof.
  intros Hw. apply word_nonempty in Hw.
  destruct w; [congruence|]. destruct ws; simpl; discriminate.
Qed.

Lemma join_words_edges ws :
  Forall (fun w => is_word w = true) ws ->
  head_ok (Text.join_space ws) = true /\ last_ok (Text.join_space ws) = true.
Proof.
  induction ws as [|w ws IH]; intros H.
  - split; reflexivity.
  - inversion H as [|? ? Hw Hws]; subst. destruct (IH Hws) as [_ IHl].
    destruct ws as [|w2 ws].
    + split; [apply word_head_ok; exact Hw|].
      apply no_space_last_ok. apply andb_prop in Hw. tauto.
    + change (Text.join_space (w :: w2 :: ws))
        with (w ++ String " " (Text.join_space (w2 :: ws)))%string.
      split.
      * pose proof (word_head_ok w Hw) as Hh.
        pose proof (word_nonempty w Hw) as Hne.
        destruct w; [congruence | exact Hh].
      * rewrite last_ok_app by discriminate.
        rewrite last_ok_cons; [exact IHl|].
        inversion Hws; subst. apply join_words_nonempty. assumption.
Qed.

Lemma canonical_is_joined s :
  Member.canonical s = Text.join_space (Text.split (Text.strip s)).
Proof. reflexivity. Qed.

Lemma canonical_stripped s : Text.strip (Member.canonical s) = Member.canonical s.
Proof.
  rewrite canonical_is_joined.
  apply strip_fixed; apply join_words_edges; apply split_words.
Qed.

Lemma canonical_idempotent s :
  Member.canonical (Member.canonical s) = Member.canonical s.
Proof.
  rewrite (canonical_is_joined (Member.canonical s)), canonical_stripped.
  rewrite canonical_is_joined, split_join by apply split_words.
  reflexivity.
Qed.

(** ** The member directory *)


















(** ** The life of a reservation *)

Lemma may_become_refl a : may_become a a = true.
Proof. destruct a; reflexivity. Qed.

Lemma may_become_trans a b c :
  may_become a b = true -> may_become b c = true -> may_become a c = true.
Proof. destruct a, b, c; simpl; congruence. Qed.

Lemma same_booking_refl r : same_booking r r.
Proof. repeat split. Qed.

Lemma same_booking_trans r1 r2 r3 :
  same_booking r1 r2 -> same_booking r2 r3 -> same_booking r1 r3.
Proof. intros (A & B & C) (A' & B' & C'). repeat split; congruence. Qed.

Lemma evolves_refl db : evolves db db.
Proof.
  intros k r' H. rewrite H.
  split; [apply same_booking_refl | apply may_become_refl].
Qed.

Lemma evolves_same db db' :
  reservations db' = reservations db -> evolves db db'.
Proof.
  intros E k r' H. unfold get_reservation in *. rewrite E in H. rewrite H.
  split; [apply same_booking_refl | apply may_become_refl].
Qed.

(** Two stages, the first of which neither drops nor adds a row. *)
Lemma evolves_trans db w db' :
  evolves db w ->
  (forall k, get_reservation k w = None <-> get_reservation k db = None) ->
  evolves w db' -> evolves db db'.
Proof.
  intros H1 Hkeys H2 k r' Hr'. specialize (H2 k r' Hr').
  destruct (get_reservation k w) as [r1|] eqn:E1.
  - specialize (H1 k r1 E1).
    destruct (get_reservation k db) as [r|] eqn:E0.
    + destruct H1 as (S1 & M1), H2 as (S2 & M2). split.
      * eapply same_booking_trans; eauto.
      * eapply may_become_trans; eauto.
    + apply Hkeys in E0. congruence.
  - rewrite (proj1 (Hkeys k) E1). exact H2.
Qed.

(** Rows rewritten in place. *)
Lemma evolves_map db db' (g : Reservation.t -> Reservation.t) :
  reservations db' = map g (reservations db) ->
  (forall x, same_booking x (g x)) ->
  (forall k x, get_reservation k db = Some x ->
               may_become (Reservation.status_of x)
                 (Reservation.status_of (g x)) = true) ->
  evolves db db'
  /\ (forall k, get_reservation k db' = None <-> get_reservation k db = None).
Proof.
  intros E Hs Hm.
  assert (Hget : forall k,
    get_reservation k db' = option_map g (get_reservation k db)).
  { intros k. unfold get_reservation. rewrite E. apply find_map_stable.
    intros x. destruct (Hs x) as (-> & _). reflexivity. }
  split.
  - intros k r' Hr'. rewrite Hget in Hr'.
    destruct (get_reservation k db) as [r|] eqn:Er; [|discriminate].
    inv Hr'. split; [apply Hs | eapply Hm; eauto].
  - intros k. rewrite Hget.
    destruct (get_reservation k db); simpl; split; congruence.
Qed.

Lemma evolves_set_status rid st db :
  (forall r, get_reservation rid db = Some r ->
             may_become (Reservation.status_of r) st = true) ->
  evolves db (set_status rid st db)
  /\ (forall k, get_reservation k (set_status rid st db) = None <->
                get_reservation k db = None).
Proof.
  intros Hm.
  apply (evolves_map db _
           (fun x => if Reservation.id x =? rid
                     then Reservation.with_status st x else x)).
  - reflexivity.
  - intros x. destruct (Reservation.id x =? rid); repeat split.
  - intros k x Hx. destruct (Reservation.id x =? rid) eqn:E.
    + apply Z.eqb_eq in E. destruct (get_reservation_id _ _ _ Hx) as [Hk _].
      apply Hm. congruence.
    + apply may_become_refl.
Qed.

(** One new active row at the end of the table. *)
Lemma evolves_add name sid w :
  evolves w (add_reservation name sid active w).
Proof.
  intros k r' Hr'.
  destruct (get_reservation k w) as [r|] eqn:Er.
  - rewrite (get_reservation_add k name sid active w r Er) in Hr'. inv Hr'.
    split; [apply same_booking_refl | apply may_become_refl].
  - unfold get_reservation in Hr', Er. simpl in Hr'.
    rewrite (find_app_fresh _ _ _ Er) in Hr'. simpl in Hr'.
    destruct (_ =? k); [|discriminate]. inv Hr'. reflexivity.
Qed.

Lemma find_key_in {A : Type} (key : A -> Z) (l : list A) (x : A) :
  NoDup (map key l) -> In x l -> find (fun y => key y =? key x) l = Some x.
Proof.
  intros Hnd Hin.
  destruct (find (fun y => key y =? key x) l) as [y|] eqn:E.
  - apply find_key_some in E as [Hy Hk].
    f_equal. eapply key_unique; eauto.
  - exfalso. eapply find_none in E; eauto. simpl in E.
    rewrite Z.eqb_refl in E. discriminate.
Qed.

(** Rows dropped from a table with distinct keys. *)
Lemma evolves_delete_session sid db :
  NoDup (map Reservation.id (reservations db)) ->
  evolves db (delete_session sid db).
Proof.
  intros N k r' Hr'. unfold get_reservation in Hr'. simpl in Hr'.
  apply find_key_some in Hr' as [Hin <-].
  apply filter_In in Hin as [Hin _].
  unfold get_reservation. rewrite (find_key_in Reservation.id _ r' N Hin).
  split; [apply same_booking_refl | apply may_become_refl].
Qed.

Lemma reserve_evolves now user sid db :
  evolves db (snd (reserve now user sid db)).
Proof.
  destruct (reserve now user sid db) as [o db'] eqn:E.
  destruct (reserve_cases _ _ _ _ _ _ E) as [->| ->]; [apply evolves_refl|].
  apply reserve_inv in E as (_ & _ & _ & _ & _ & _ & _ & _ & _ & -> & _).
  simpl. intros k r' Hr'. apply (evolves_add user sid db k r'). exact Hr'.
Qed.

Lemma cancel_evolves now now' user rid db :
  evolves db (snd (cancel now now' user rid db)).
Proof.
  destruct (cancel now now' user rid db) as [o db'] eqn:E.
  destruct (cancel_cases _ _ _ _ _ _ _ E) as [->| ->]; [apply evolves_refl|].
  apply cancel_inv in E as (r & _ & _ & _ & _ & _ & _ & _ & -> & _).
  simpl. intros k r' Hr'.
  apply (proj1 (evolves_set_status rid canceled db
                  ltac:(intros x _; destruct (Reservation.status_of x);
                        reflexivity)) k r').
  exact Hr'.
Qed.

Lemma move_evolves now user rid method db :
  evolves db (snd (move now user rid method db)).
Proof.
  destruct (move now user rid method db) as [o db'] eqn:E.
  destruct (move_cases _ _ _ _ _ _ _ E) as [->|(tid & -> & ->)];
    [apply evolves_refl|].
  apply move_inv in E as (r & _ & _ & Hr & _ & Ha & _ & _ & _ & _ & -> & _).
  simpl.
  destruct (evolves_set_status rid moved db) as [H1 Hk].
  { intros x Hx. rewrite Hr in Hx. inv Hx. rewrite Ha. reflexivity. }
  apply (evolves_trans db (set_status rid moved db)); auto.
  intros k r' Hr'.
  apply (evolves_add (Reservation.user_name r) tid
           (adjust_spots (Reservation.session_id r) 1
              (set_status rid moved db)) k r').
  exact Hr'.
Qed.

Lemma admin_cancel_evolves rid db :
  evolves db (snd (admin_cancel_reservation_refund rid db)).
Proof.
  destruct (admin_cancel_reservation_refund rid db) as [o db'] eqn:E.
  destruct (admin_cancel_cases _ _ _ _ E) as [->| ->]; [apply evolves_refl|].
  apply admin_cancel_inv in E as (r & _ & _ & Hres & _).
  simpl.
  apply (evolves_map db db'
           (fun x => if Reservation.id x =? rid
                     then Reservation.with_status canceled x else x)).
  - exact Hres.
  - intros x. destruct (Reservation.id x =? rid); repeat split.
  - intros k x _. destruct (Reservation.id x =? rid);
      [destruct (Reservation.status_of x); reflexivity
      | apply may_become_refl].
Qed.

Lemma admin_delete_session_evolves now sid db :
  stored db -> evolves db (snd (admin_delete_session now sid db)).
Proof.
  intros (_ & _ & N2 & _). unfold admin_delete_session.
  destruct (get_session sid db) as [s|]; [|apply evolves_refl].
  destruct (Session.is_past now s); [apply evolves_refl|].
  set (rs := reservations_of (Session.id s) db).
  destruct (fold_refund_tables rs db) as (_ & Hres).
  set (g := fun x => if hits (fun _ => true) Reservation.id rs
                          (Reservation.id x)
                     then Reservation.with_status canceled x else x) in Hres.
  destruct (evolves_map db (fold_left refund_reservation rs db) g Hres)
    as (Hev & Hkeys).
  { intros x. unfold g. destruct (hits _ _ rs _); repeat split. }
  { intros k x _. unfold g. destruct (hits _ _ rs _);
      [destruct (Reservation.status_of x); reflexivity
      | apply may_become_refl]. }
  destruct (commit db (fold_left refund_reservation rs db) SessionDeleted)
    as [o db1] eqn:E.
  apply commit_inv in E as [(-> & -> & _)|(-> & -> & _)];
    [|apply evolves_refl].
  unfold commit. destruct (constraints_ok _); simpl; [|exact Hev].
  apply (evolves_trans db (fold_left refund_reservation rs db)); auto.
  apply evolves_delete_session. rewrite Hres.
  assert (Hid : map Reservation.id (map g (reservations db))
                = map Reservation.id (reservations db)).
  { rewrite map_map. apply map_ext. intros x. unfold g.
    destruct (hits _ _ rs _); reflexivity. }
  rewrite Hid. exact N2.
Qed.

Lemma settled_evolves now db :
  evolves db (settled now db)
  /\ (forall k, get_reservation k (settled now db) = None <->
                get_reservation k db = None).
Proof.
  apply (evolves_map db (settled now db) (attend (to_close now db))).
  - reflexivity.
  - intros x. unfold attend. destruct (_ && _); repeat split.
  - intros k x _. unfold attend, is_active.
    destruct (status_eqb (Reservation.status_of x) active) eqn:E; simpl.
    + apply status_eqb_eq in E.
      destruct (closes _ _); simpl; rewrite E; reflexivity.
    + apply may_become_refl.
Qed.

Lemma handle_evolves q db : stored db -> evolves db (snd (handle q db)).
Proof.
  intros Hst. destruct q; simpl.
  - apply reserve_evolves.
  - apply cancel_evolves.
  - apply move_evolves.
  - apply admin_cancel_evolves.
  - apply evolves_same.
    destruct (admin_sessions_cases d t cap notes db) as [->|(n & ->)];
      reflexivity.
  - apply admin_delete_session_evolves. exact Hst.
  - apply evolves_same. unfold admin_members, commit.
    repeat break_match; reflexivity.
  - apply evolves_same. unfold admin_members_delete, commit.
    repeat break_match; reflexivity.
  - apply evolves_same. unfold admin_members_adjust_credits, commit.
    repeat break_match; reflexivity.
Qed.

Lemma step_evolves db e : stored db -> evolves db (step db e).
Proof.
  intros Hst. unfold step. rewrite (served_on_stored _ _ db Hst).
  destruct (settled_evolves (fst e) db) as (Hev & Hkeys).
  apply (evolves_trans db (settled (fst e) db)); auto.
  apply handle_evolves. apply settled_stored. exact Hst.
Qed.

Lemma no_show_from a : may_become a no_show = true -> a = no_show.
Proof. destruct a; simpl; congruence. Qed.

(** ** Deleting a session *)

Lemma refund_members w r :
  members (refund_reservation w r)
  = if status_eqb (Reservation.status_of r) attended
    then credit (Reservation.user_name r) (members w)
    else members w.
Proof.
  unfold refund_reservation, credit, find_member. simpl.
  destruct (find _ (members w)) as [m|];
    destruct (status_eqb _ attended); reflexivity.
Qed.

Lemma fold_refund_members rs w :
  members (fold_left refund_reservation rs w)
  = fold_left (fun ms name => credit name ms)
      (map Reservation.user_name
         (filter (fun r => status_eqb (Reservation.status_of r) attended) rs))
      (members w).
Proof.
  revert w. induction rs as [|r rs IH]; intros w; simpl; [reflexivity|].
  rewrite IH, refund_members.
  destruct (status_eqb _ attended); reflexivity.
Qed.

Lemma filter_map_fixed_in {A : Type} (p : A -> bool) (g : A -> A) (l : list A) :
  (forall x, p (g x) = p x) ->
  (forall x, In x l -> p x = true -> g x = x) ->
  filter p (map g l) = filter p l.
Proof.
  intros Hp. induction l as [|a l IH]; simpl; intros Hg.
  - reflexivity.
  - rewrite Hp. destruct (p a) eqn:E.
    + rewrite (Hg a) by auto. f_equal. apply IH. auto.
    + apply IH. auto.
Qed.

Lemma forallb_filter_keep {A : Type} (p q : A -> bool) (l : list A) :
  forallb p l = true -> forallb p (filter q l) = true.
Proof.
  rewrite !forallb_forall. intros H x Hx.
  apply filter_In in Hx as [Hx _]. auto.
Qed.

Lemma find_filter_out {A : Type} (key : A -> Z) (k : Z) (l : list A) :
  find (fun x => key x =? k) (filter (fun x => negb (key x =? k)) l) = None.
Proof.
  induction l as [|a l IH]; simpl; [reflexivity|].
  destruct (key a =? k) eqn:E; simpl; [exact IH|]. rewrite E. exact IH.
Qed.

Lemma find_filter_other {A : Type} (key : A -> Z) (k k' : Z) (l : list A) :
  k' <> k ->
  find (fun x => key x =? k') (filter (fun x => negb (key x =? k)) l)
  = find (fun x => key x =? k') l.
Proof.
  intros Hne. induction l as [|a l IH]; simpl; [reflexivity|].
  destruct (key a =? k) eqn:E; simpl.
  - apply Z.eqb_eq in E.
    assert ((key a =? k') = false) as -> by (apply Z.eqb_neq; congruence).
    exact IH.
  - destruct (key a =? k'); [reflexivity | exact IH].
Qed.

(** What a deletion that passed the date test stores. *)
Lemma delete_session_result now sid db s :
  stored db ->
  get_session sid db = Some s ->
  Session.is_past now s = false ->
  admin_delete_session now sid db
  = (SessionDeleted,
     mkStore (filter (fun x => negb (Session.id x =? sid)) (sessions db))
             (filter (fun r => negb (Reservation.session_id r =? sid))
                (reservations db))
             (fold_left (fun ms name => credit name ms)
                (attended_names sid db) (members db))).
Proof.
  intros (Hok & N1 & N2 & _) Hs Hp. unfold admin_delete_session.
  rewrite Hs, Hp. destruct (get_session_id _ _ _ Hs) as [Hid _]. rewrite Hid.
  set (rs := reservations_of sid db).
  destruct (fold_refund_tables rs db) as (Hses & Hres).
  pose proof (fold_refund_members rs db) as Hmem.
  set (w := fold_left refund_reservation rs db) in *.
  rewrite (commit_ok db w).
  2:{ rewrite (constraints_ok_sessions db w Hses). exact Hok. }
  rewrite commit_ok.
  2:{ unfold constraints_ok. simpl. apply forallb_filter_keep.
      rewrite Hses. exact Hok. }
  f_equal. unfold delete_session. rewrite Hses, Hmem. f_equal.
  rewrite Hres. apply filter_map_fixed_in.
  - intros x. destruct (hits _ _ rs _); reflexivity.
  - intros x Hx Hp'.
    destruct (hits (fun _ => true) Reservation.id rs (Reservation.id x)) eqn:E;
      [|reflexivity].
    exfalso. apply existsb_exists in E as (r & Hr & Hk). simpl in Hk.
    apply Z.eqb_eq in Hk. apply filter_In in Hr as [Hr Hsid].
    assert (x = r) as -> by (eapply key_unique; eauto).
    rewrite Hsid in Hp'. discriminate.
Qed.

(** ** The studio states are reached *)


Lemma double_reachable : reachable double_state.
Proof. exists double_trace. reflexivity. Qed.

Lemma swept_reachable : reachable swept_state.
Proof. exists swept_trace. vm_compute. reflexivity. Qed.



(** ** Registration and login *)









(** ** The member directory under the admin routes *)






(** ** A new session *)

Lemma constraints_ok_add d t cap notes db :
  constraints_ok (add_session d t cap cap notes db)
  = constraints_ok db && (0 <=? cap).
Proof.
  unfold constraints_ok. simpl. rewrite forallb_app. simpl.
  unfold Session.check. simpl. rewrite Z.leb_refl.
  destruct (0 <=? cap); simpl; rewrite ?andb_true_r, ?andb_false_r; reflexivity.
Qed.



(** ** Requests in a row *)


(** The three booking routes leave the member directory alone. *)
Lemma booking_members now now' user k method db :
  members (snd (reserve now user k db)) = members db
  /\ members (snd (cancel now now' user k db)) = members db
  /\ members (snd (move now user k method db)) = members db.
Proof.
  split_ands.
  - destruct (reserve now user k db) as [o db'] eqn:E.
    destruct (reserve_cases _ _ _ _ _ _ E) as [->| ->]; [reflexivity|].
    apply reserve_inv in E as (_ & _ & _ & _ & _ & _ & _ & _ & _ & -> & _).
    reflexivity.
  - destruct (cancel now now' user k db) as [o db'] eqn:E.
    destruct (cancel_cases _ _ _ _ _ _ _ E) as [->| ->]; [reflexivity|].
    apply cancel_inv in E as (r & _ & _ & _ & _ & _ & _ & _ & -> & _).
    reflexivity.
  - destruct (move now user k method db) as [o db'] eqn:E.
    destruct (move_cases _ _ _ _ _ _ _ E) as [->|(tid & -> & ->)];
      [reflexivity|].
    apply move_inv in E as (r & _ & _ & _ & _ & _ & _ & _ & _ & _ & -> & _).
    reflexivity.
Qed.

(** ** The life of a session *)

Ltac slot_step :=
  repeat match goal with
         | s : Session.t |- _ => destruct s
         end;
  unfold same_slot; simpl in *; split_ands; try reflexivity; try lia; auto.

Lemma advances_refl n db : 0 <= n -> advances n db db.
Proof.
  intros Hn k s' Hs'. rewrite Hs'.
  assert (Session.spots_left s' - Session.spots_left s' = 0) as -> by lia.
  unfold same_slot. simpl. split_ands; auto.
Qed.

Lemma advances_sessions n db w db' :
  sessions db' = sessions w -> advances n db w -> advances n db db'.
Proof.
  intros E H k s' Hs'. unfold get_session in Hs'. rewrite E in Hs'.
  exact (H k s' Hs').
Qed.

Lemma advances_adjust n (sid d : Z) db w :
  sessions w = sessions db -> Z.abs d <= n -> 0 <= n ->
  advances n db (adjust_spots sid d w).
Proof.
  intros E Hd Hn k s' Hs'. rewrite get_session_adjust in Hs'.
  assert (Hw : get_session k w = get_session k db)
    by (unfold get_session; rewrite E; reflexivity).
  rewrite Hw in Hs'.
  destruct (k =? sid); destruct (get_session k db) as [s|];
    simpl in Hs'; inv Hs'; slot_step.
Qed.

Lemma advances_add n d t cap notes db :
  0 <= n -> advances n db (add_session d t cap cap notes db).
Proof.
  intros Hn k s' Hs'. unfold get_session in *. simpl in Hs'.
  destruct (find (fun s => Session.id s =? k) (sessions db)) as [s|] eqn:E.
  - rewrite (find_app_found _ _ _ _ E) in Hs'. inv Hs'. slot_step.
  - rewrite (find_app_fresh _ _ _ E) in Hs'.
    destruct (_ =? k) in Hs'; inv Hs'. simpl. auto.
Qed.

Lemma advances_filter n sid db w :
  0 <= n ->
  sessions w = filter (fun s => negb (Session.id s =? sid)) (sessions db) ->
  advances n db w.
Proof.
  intros Hn E k s' Hs'. unfold get_session in *. rewrite E in Hs'.
  destruct (Z.eq_dec k sid) as [->|Hne].
  - rewrite (find_filter_out Session.id) in Hs'. discriminate.
  - rewrite (find_filter_other Session.id) in Hs' by exact Hne.
    rewrite Hs'. slot_step.
Qed.

Lemma get_session_settled now db k :
  get_session k (settled now db)
  = option_map (fun s => if due now s then Session.with_completed true s
                         else s)
      (get_session k db).
Proof.
  unfold get_session. simpl. apply find_map_stable.
  intros x. destruct (due now x); reflexivity.
Qed.

Lemma advances_after_sweep n now db db' :
  advances n (settled now db) db' -> advances n db db'.
Proof.
  intros H k s' Hs'. specialize (H k s' Hs').
  rewrite get_session_settled in H.
  destruct (get_session k db) as [s|]; simpl in H; [|exact H].
  destruct (due now s); [|exact H].
  destruct H as (Hslot & Hd & Hc). split_ands.
  - destruct s; exact Hslot.
  - destruct s; exact Hd.
  - intros _. apply Hc. reflexivity.
Qed.

Lemma handle_advances q db :
  stored db -> advances 1 db (snd (handle q db)).
Proof.
  intros Hst.
  destruct q as [now user sid|now now' user rid|now user rid method|rid
                |d t cap notes|now sid|name credits|mid|mid delta]; simpl.
  - destruct (reserve now user sid db) as [o db'] eqn:E.
    destruct (reserve_cases _ _ _ _ _ _ E) as [->| ->];
      [apply advances_refl; lia|].
    apply reserve_inv in E as (_ & _ & _ & _ & _ & _ & _ & _ & _ & -> & _).
    simpl. apply advances_adjust; [reflexivity | simpl; lia | lia].
  - destruct (cancel now now' user rid db) as [o db'] eqn:E.
    destruct (cancel_cases _ _ _ _ _ _ _ E) as [->| ->];
      [apply advances_refl; lia|].
    apply cancel_inv in E as (r & _ & _ & _ & _ & _ & _ & _ & -> & _).
    simpl. apply advances_adjust; [reflexivity | simpl; lia | lia].
  - destruct (move now user rid method db) as [o db'] eqn:E.
    destruct (move_cases _ _ _ _ _ _ _ E) as [->|(tid & -> & ->)];
      [apply advances_refl; lia|].
    apply move_inv in E as (r & _ & _ & _ & _ & _ & _ & _ & _ & _ & -> & _).
    simpl. intros k s' Hs'.
    rewrite get_session_adjust in Hs'.
    change (get_session k (add_reservation ?a ?b ?c ?w))
      with (get_session k w) in Hs'.
    rewrite get_session_adjust in Hs'.
    change (get_session k (set_status rid moved db))
      with (get_session k db) in Hs'.
    destruct (k =? tid); destruct (k =? Reservation.session_id r);
      destruct (get_session k db) as [s|]; simpl in Hs'; inv Hs'; slot_step.
  - destruct (admin_cancel_reservation_refund rid db) as [o db'] eqn:E.
    destruct (admin_cancel_cases _ _ _ _ E) as [->| ->];
      [apply advances_refl; lia|].
    apply admin_cancel_inv in E as (r & _ & _ & _ & _ & Hses & _).
    simpl.
    destruct (Reservation.status_of r);
      try (apply (advances_sessions 1 db db _ Hses); apply advances_refl; lia).
    destruct (get_session (Reservation.session_id r) db) as [s|];
      [|apply (advances_sessions 1 db db _ Hses); apply advances_refl; lia].
    destruct (Session.completed s);
      [apply (advances_sessions 1 db db _ Hses); apply advances_refl; lia|].
    apply (advances_sessions 1 db _ _ Hses).
    apply advances_adjust; [reflexivity | simpl; lia | lia].
  - destruct (admin_sessions_cases d t cap notes db) as [->|(n & ->)].
    + apply advances_refl. lia.
    + apply advances_add. lia.
  - destruct (get_session sid db) as [s|] eqn:Es.
    + destruct (Session.is_past now s) eqn:Ep.
      * unfold admin_delete_session. rewrite Es, Ep. apply advances_refl. lia.
      * rewrite (delete_session_result now sid db s Hst Es Ep). simpl.
        apply (advances_filter 1 sid); [lia | reflexivity].
    + unfold admin_delete_session. rewrite Es. apply advances_refl. lia.
  - apply (advances_sessions 1 db db); [|apply advances_refl; lia].
    unfold admin_members, commit. repeat break_match; reflexivity.
  - apply (advances_sessions 1 db db); [|apply advances_refl; lia].
    unfold admin_members_delete, commit. repeat break_match; reflexivity.
  - apply (advances_sessions 1 db db); [|apply advances_refl; lia].
    unfold admin_members_adjust_credits, commit.
    repeat break_match; reflexivity.
Qed.

Lemma step_advances db e : stored db -> advances 1 db (step db e).
Proof.
  intros Hst. unfold step. rewrite (served_on_stored _ _ db Hst).
  apply (advances_after_sweep 1 (fst e)).
  apply handle_advances. apply settled_stored. exact Hst.
Qed.

(** ** The names on the reservations *)







(** ** The pages *)

Lemma starts_before_total a b :
  starts_before a b = false -> starts_before b a = true.
Proof.
  unfold starts_before. intros H.
  apply orb_false_iff in H as [H1 H2]. apply Z.ltb_ge in H1.
  apply andb_false_iff in H2.
  apply orb_true_iff.
  destruct (Z.eq_dec (Session.date a) (Session.date b)) as [E|E].
  - right. destruct H2 as [H2|H2]; [apply Z.eqb_neq in H2; congruence|].
    apply Z.leb_gt in H2. apply andb_true_iff. split.
    + apply Z.eqb_eq. congruence.
    + apply Z.leb_le. lia.
  - left. apply Z.ltb_lt. lia.
Qed.

Lemma insert_by_start_perm s l : Permutation (insert_by_start s l) (s :: l).
Proof.
  induction l as [|x l IH]; simpl; [reflexivity|].
  destruct (starts_before s x); [reflexivity|].
  rewrite IH. apply perm_swap.
Qed.

Lemma order_by_start_perm l : Permutation (order_by_start l) l.
Proof.
  induction l as [|x l IH]; simpl; [reflexivity|].
  rewrite insert_by_start_perm. constructor. exact IH.
Qed.

Lemma order_by_start_in l x : In x (order_by_start l) <-> In x l.
Proof.
  split; apply Permutation_in;
    [|symmetry]; apply order_by_start_perm.
Qed.

Lemma insert_by_start_sorted s l :
  Sorted (fun a b => starts_before a b = true) l ->
  Sorted (fun a b => starts_before a b = true) (insert_by_start s l).
Proof.
  induction l as [|x l IH]; simpl; intros H.
  - repeat constructor.
  - destruct (starts_before s x) eqn:E.
    + constructor; [exact H|]. constructor. exact E.
    + inversion H as [|? ? Hs Hh]; subst.
      constructor; [apply IH; exact Hs|].
      destruct l as [|y l]; simpl.
      * constructor. apply starts_before_total. exact E.
      * destruct (starts_before s y).
        -- constructor. apply starts_before_total. exact E.
        -- inversion Hh; subst. constructor. assumption.
Qed.

Lemma order_by_start_sorted l :
  Sorted (fun a b => starts_before a b = true) (order_by_start l).
Proof.
  induction l as [|x l IH]; simpl; [constructor|].
  apply insert_by_start_sorted. exact IH.
Qed.

Lemma sum_of_le {A : Type} (f g : A -> Z) (l : list A) :
  (forall x, In x l -> f x <= g x) -> sum_of f l <= sum_of g l.
Proof.
  induction l as [|a l IH]; simpl; intros H; [lia|].
  pose proof (H a (or_introl eq_refl)). 
  assert (sum_of f l <= sum_of g l) by (apply IH; auto).
  lia.
Qed.

Lemma sum_of_zero {A : Type} (l : list A) : sum_of (fun _ => 0) l = 0.
Proof. induction l as [|a l IH]; simpl; lia. Qed.

Lemma sum_of_plus {A : Type} (f g : A -> Z) (l : list A) :
  sum_of (fun x => f x + g x) l = sum_of f l + sum_of g l.
Proof. induction l as [|a l IH]; simpl; lia. Qed.

Lemma sum_of_ext {A : Type} (f g : A -> Z) (l : list A) :
  (forall x, f x = g x) -> sum_of f l = sum_of g l.
Proof. intros H. induction l as [|a l IH]; simpl; rewrite ?H; lia. Qed.

Lemma sum_of_ext_in {A : Type} (f g : A -> Z) (l : list A) :
  (forall x, In x l -> f x = g x) -> sum_of f l = sum_of g l.
Proof.
  induction l as [|a l IH]; simpl; intros H; [reflexivity|].
  rewrite (H a) by auto. rewrite IH by auto. reflexivity.
Qed.

(** Among rows with distinct keys exactly one has a given key of the
    table. *)
Lemma sum_of_key {A : Type} (key : A -> Z) (k : Z) (l : list A) :
  NoDup (map key l) -> In k (map key l) ->
  sum_of (fun x => ind (k =? key x)) l = 1.
Proof.
  induction l as [|a l IH]; simpl; intros Hnd Hin; [contradiction|].
  inv Hnd. destruct (Z.eq_dec k (key a)) as [->|Hne].
  - rewrite Z.eqb_refl. simpl.
    rewrite (sum_of_ext_in _ (fun _ => 0)), sum_of_zero; [reflexivity|].
    intros x Hx. destruct (key a =? key x) eqn:E; [|reflexivity].
    exfalso. apply Z.eqb_eq in E. apply H1. rewrite E. apply in_map. exact Hx.
  - assert ((k =? key a) = false) as -> by (apply Z.eqb_neq; exact Hne).
    simpl. apply IH; [assumption|].
    destruct Hin as [Hin|Hin]; [congruence | exact Hin].
Qed.

(** Rows that point into a table with distinct keys, counted by the row
    they point to. *)
Lemma cnt_by_key {A B : Type} (key : A -> Z) (kb : B -> Z) (p : B -> bool)
  (ss : list A) (rs : list B) :
  NoDup (map key ss) ->
  (forall r, In r rs -> p r = true -> In (kb r) (map key ss)) ->
  cnt p rs = sum_of (fun s => cnt (fun r => p r && (kb r =? key s)) rs) ss.
Proof.
  intros Hnd. induction rs as [|a rs IH]; intros Href.
  - rewrite cnt_nil. symmetry.
    rewrite (sum_of_ext _ (fun _ => 0)); [apply sum_of_zero|].
    intros x. apply cnt_nil.
  - rewrite cnt_cons.
    rewrite (sum_of_ext _
               (fun s => ind (p a && (kb a =? key s))
                         + cnt (fun r => p r && (kb r =? key s)) rs))
      by (intros x; rewrite cnt_cons; reflexivity).
    rewrite sum_of_plus.
    rewrite <- IH by (intros r Hr; apply Href; right; exact Hr).
    f_equal. destruct (p a) eqn:Ep; simpl.
    + symmetry. apply sum_of_key; [exact Hnd|].
      apply Href; [left; reflexivity | exact Ep].
    + symmetry. apply sum_of_zero.
Qed.

Lemma stored_bounds db s :
  stored db -> In s (sessions db) ->
  0 <= Session.spots_left s <= Session.capacity s.
Proof.
  intros (Hok & _) Hs. unfold constraints_ok in Hok.
  rewrite forallb_forall in Hok. specialize (Hok s Hs).
  unfold Session.check in Hok.
  apply andb_true_iff in Hok as [Hok H3].
  apply andb_true_iff in Hok as [_ H2]. lia.
Qed.

Lemma length_filter_le {A : Type} (p : A -> bool) (l : list A) :
  (List.length (filter p l) <= List.length l)%nat.
Proof.
  induction l as [|a l IH]; simpl; [lia|].
  destruct (p a); simpl; lia.
Qed.

(** ** The seed script *)

Lemma next_id_app ids k :
  next_id (ids ++ [k]) = Z.max (next_id ids) (k + 1).
Proof.
  unfold next_id. induction ids as [|a ids IH]; simpl; lia.
Qed.

Lemma next_id_next ids : next_id (ids ++ [next_id ids]) = next_id ids + 1.
Proof. rewrite next_id_app. lia. Qed.

Lemma stored_add_session d t cap notes db :
  stored db -> 0 <= cap -> stored (add_session d t cap cap notes db).
Proof.
  intros (Hok & N1 & N2 & N3) Hcap.
  split; [|split; [|split; [exact N2 | exact N3]]].
  - rewrite constraints_ok_add, Hok. apply Z.leb_le. exact Hcap.
  - simpl. rewrite map_app. simpl. apply nodup_app_fresh. exact N1.
Qed.

(** * Further properties of the routes *)

(** X1.  [normalize_name] is idempotent, its result neither starts nor ends
    with white space, and a name without white space at its ends is stored
    as it is. *)
Theorem normalize_name_normal_form (s : string) :
  Reservation.normalize_name (Reservation.normalize_name s)
  = Reservation.normalize_name s
  /\ head_ok (Reservation.normalize_name s) = true
  /\ last_ok (Reservation.normalize_name s) = true
  /\ (head_ok s = true -> last_ok s = true ->
      Reservation.normalize_name s = s).
Proof.
  unfold Reservation.normalize_name. split_ands.
  - apply strip_idempotent.
  - apply strip_edges.
  - apply strip_edges.
  - apply strip_fixed.
Qed.

Lemma normalize_name_normal_form_witness :
  head_ok "Ada Lovelace" = true
  /\ last_ok "Ada Lovelace" = true
  /\ Reservation.normalize_name "Ada Lovelace" = "Ada Lovelace"%string.
Proof.
  split; [reflexivity|]. split; [reflexivity|].
  apply (proj2 (proj2 (proj2 (normalize_name_normal_form "Ada Lovelace"))));
    reflexivity.
Defined.

(** X2.  [Member.canonical] is idempotent; its result is stripped and is
    the words of the name joined by single spaces, so splitting it gives
    them back; words joined by single spaces are canonical already. *)
Theorem canonical_normal_form (s : string) :
  Member.canonical (Member.canonical s) = Member.canonical s
  /\ Text.strip (Member.canonical s) = Member.canonical s
  /\ Forall (fun w => is_word w = true) (Text.split (Text.strip s))
  /\ Text.split (Member.canonical s) = Text.split (Text.strip s)
  /\ (forall ws, Forall (fun w => is_word w = true) ws ->
                 Member.canonical (Text.join_space ws) = Text.join_space ws).
Proof.
  split_ands.
  - apply canonical_idempotent.
  - apply canonical_stripped.
  - apply split_words.
  - rewrite canonical_is_joined. apply split_join. apply split_words.
  - intros ws Hws. rewrite canonical_is_joined.
    rewrite strip_fixed by (apply join_words_edges; exact Hws).
    rewrite split_join by exact Hws. reflexivity.
Qed.

Lemma canonical_normal_form_witness :
  Forall (fun w => is_word w = true) ["Ada"; "Lovelace"]%string
  /\ Member.canonical "Ada Lovelace" = "Ada Lovelace"%string
  /\ Member.canonical "  Ada    Lovelace " = "Ada Lovelace"%string.
Proof.
  assert (H : Forall (fun w => is_word w = true) ["Ada"; "Lovelace"]%string).
  { repeat constructor. }
  split; [exact H|]. split; [|reflexivity].
  exact (proj2 (proj2 (proj2 (proj2 (canonical_normal_form EmptyString))))
           ["Ada"; "Lovelace"]%string H).
Defined.





(** X5.  Across a request a reservation that is kept is the same booking
    (key, member name, session) and its status moves only along active ->
    attended, canceled or moved, and anything -> canceled: a canceled
    reservation stays canceled, a reservation that is not active never
    becomes active again, and a reservation that appears is active. *)
Theorem reservation_life (db : store) (e : Z * request) :
  stored db ->
  (forall k r r',
      get_reservation k db = Some r ->
      get_reservation k (step db e) = Some r' ->
      same_booking r r'
      /\ may_become (Reservation.status_of r) (Reservation.status_of r') = true
      /\ (Reservation.status_of r = canceled ->
          Reservation.status_of r' = canceled)
      /\ (Reservation.status_of r <> active ->
          Reservation.status_of r' <> active))
  /\ (forall k r',
        get_reservation k db = None ->
        get_reservation k (step db e) = Some r' ->
        Reservation.status_of r' = active).
Proof.
  intros Hst. pose proof (step_evolves db e Hst) as Hev. split.
  - intros k r r' Hr Hr'. specialize (Hev k r' Hr'). rewrite Hr in Hev.
    destruct Hev as (Hs & Hm). split_ands; auto.
    + intros Hc. rewrite Hc in Hm.
      destruct (Reservation.status_of r'); simpl in Hm; congruence.
    + intros Hna Ha. rewrite Ha in Hm.
      destruct (Reservation.status_of r); simpl in Hm; congruence.
  - intros k r' Hr Hr'. specialize (Hev k r' Hr'). rewrite Hr in Hev.
    exact Hev.
Qed.

Lemma reservation_life_witness :
  stored double_state
  /\ get_reservation 1 double_state
     = Some (Reservation.mk 1 "Ada Lovelace" 1 active)
  /\ get_reservation 1
       (step double_state (0, ReqMove 0 "Ada Lovelace" 1 (POST 2)))
     = Some (Reservation.mk 1 "Ada Lovelace" 1 moved)
  /\ may_become active moved = true
  /\ get_reservation 3 double_state = None
  /\ (forall r',
         get_reservation 3
           (step double_state (0, ReqMove 0 "Ada Lovelace" 1 (POST 2)))
         = Some r' ->
         Reservation.status_of r' = active).
Proof.
  destruct (reservation_life double_state
              (0, ReqMove 0 "Ada Lovelace" 1 (POST 2)) double_stored)
    as (Hkept & Hnew).
  assert (H1 : get_reservation 1 double_state
               = Some (Reservation.mk 1 "Ada Lovelace" 1 active)).
  { vm_compute. reflexivity. }
  assert (H2 : get_reservation 1
                 (step double_state (0, ReqMove 0 "Ada Lovelace" 1 (POST 2)))
               = Some (Reservation.mk 1 "Ada Lovelace" 1 moved)).
  { vm_compute. reflexivity. }
  assert (H3 : get_reservation 3 double_state = None).
  { vm_compute. reflexivity. }
  split; [exact double_stored|]. split; [exact H1|]. split; [exact H2|].
  split; [exact (proj1 (proj2 (Hkept _ _ _ H1 H2)))|].
  split; [exact H3|].
  intros r'. apply Hnew. exact H3.
Defined.

(** X6.  No request assigns [no_show]: in every state the application
    reaches no reservation has that status. *)
Theorem no_show_never_assigned (db : store) :
  reachable db ->
  forall r, In r (reservations db) -> Reservation.status_of r <> no_show.
Proof.
  intros (trace & <-). unfold run.
  assert (H : stored empty_store
              /\ forall r, In r (reservations empty_store) ->
                           Reservation.status_of r <> no_show).
  { split; [apply empty_stored | intros r []]. }
  revert H. generalize empty_store.
  induction trace as [|e trace IH]; simpl; intros db [Hst Hno].
  - exact Hno.
  - apply IH. split; [apply step_stored; exact Hst|].
    intros r' Hr' Hbad.
    pose proof (step_stored db e Hst) as (_ & _ & N2 & _).
    pose proof (find_key_in Reservation.id _ r' N2 Hr') as Hget.
    pose proof (step_evolves db e Hst (Reservation.id r') r' Hget) as Hev.
    destruct (get_reservation (Reservation.id r') db) as [r|] eqn:Er.
    + destruct Hev as (_ & Hm). rewrite Hbad in Hm.
      apply no_show_from in Hm.
      apply get_reservation_id in Er as [_ Hin]. exact (Hno r Hin Hm).
    + congruence.
Qed.

Lemma no_show_never_assigned_witness :
  reachable swept_state
  /\ In (Reservation.mk 2 "Ada Lovelace" 2 attended) (reservations swept_state)
  /\ attended <> no_show.
Proof.
  assert (Hin : In (Reservation.mk 2 "Ada Lovelace" 2 attended)
                  (reservations swept_state)).
  { vm_compute. right. left. reflexivity. }
  split; [exact swept_reachable|]. split; [exact Hin|].
  exact (no_show_never_assigned swept_state swept_reachable _ Hin).
Defined.















(** X14.  A reservation that was canceled or moved is closed to its owner:
    after a cancel or a move that went through, every further cancel of the
    same reservation is answered that it is not active and every further
    move of it is refused, with the store untouched; after a cancel the
    admin cancel is answered that it is canceled already. *)
Theorem closed_reservation_refused (user : string) (rid : Z) (db db' : store) :
  stored db ->
  (exists now now', cancel now now' user rid db = (Canceled, db'))
  \/ (exists now tid, move now user rid (POST tid) db = (Moved, db')) ->
  (forall now now', cancel now now' user rid db' = (NotActive, db'))
  /\ (forall now method, move now user rid method db' = (MoveRefused, db'))
  /\ ((exists now now', cancel now now' user rid db = (Canceled, db')) ->
      admin_cancel_reservation_refund rid db' = (AlreadyCanceled, db')).
Proof.
  intros Hst Hdone.
  assert (H : exists r st,
             get_reservation rid db' = Some (Reservation.with_status st r)
             /\ Reservation.user_name r = user
             /\ st <> active
             /\ ((exists now now', cancel now now' user rid db = (Canceled, db'))
                 -> st = canceled)).
  { destruct Hdone as [(now & now' & E)|(now & tid & E)].
    - apply cancel_inv in E as (r & s & Hr & Hu & _ & _ & _ & _ & -> & _).
      exists r, canceled. split_ands; try congruence; auto.
      change (get_reservation rid (adjust_spots _ 1 (set_status rid canceled db)))
        with (get_reservation rid (set_status rid canceled db)).
      rewrite get_reservation_set_status, Z.eqb_refl, Hr. reflexivity.
    - pose proof E as E'.
      apply move_inv in E as (r & src & tgt & Hr & Hu & Ha & _ & _ & _ & _ & -> & _).
      exists r, moved. split_ands; try congruence.
      + rewrite Hu. apply get_reservation_moved. exact Hr.
      + intros (n & n' & Ec).
        apply cancel_inv in Ec as (r1 & _ & _ & _ & _ & _ & _ & _ & Hdb & _).
        exfalso.
        assert (Hlen : List.length (reservations
                         (adjust_spots (Reservation.session_id r1) 1
                            (set_status rid canceled db)))
                       = List.length (reservations db)).
        { simpl. unfold update_where. apply length_map. }
        apply move_inv in E'
          as (r2 & _ & _ & _ & _ & _ & _ & _ & _ & _ & Hdb2 & _).
        rewrite <- Hdb, Hdb2 in Hlen. simpl in Hlen.
        rewrite length_app in Hlen. unfold update_where in Hlen.
        rewrite length_map in Hlen. simpl in Hlen. lia. }
  destruct H as (r & st & Hget & Hu & Hna & Hc).
  split_ands.
  - intros now now'. unfold cancel. rewrite Hget.
    change (Reservation.user_name (Reservation.with_status st r))
      with (Reservation.user_name r).
    rewrite Hu, String.eqb_refl. cbn [negb].
    change (Reservation.status_of (Reservation.with_status st r)) with st.
    destruct st; simpl; congruence.
  - intros now method. unfold move. rewrite Hget.
    change (Reservation.user_name (Reservation.with_status st r))
      with (Reservation.user_name r).
    rewrite Hu, String.eqb_refl. cbn [negb orb].
    change (Reservation.status_of (Reservation.with_status st r)) with st.
    destruct st; simpl; congruence.
  - intros Hcan. rewrite (Hc Hcan) in Hget.
    unfold admin_cancel_reservation_refund. rewrite Hget. reflexivity.
Qed.

Lemma closed_reservation_refused_witness :
  stored double_state
  /\ cancel 0 0 "Ada Lovelace" 1 double_state
     = (Canceled, step double_state (0, ReqCancel 0 0 "Ada Lovelace" 1))
  /\ cancel 1 1 "Ada Lovelace" 1
       (step double_state (0, ReqCancel 0 0 "Ada Lovelace" 1))
     = (NotActive, step double_state (0, ReqCancel 0 0 "Ada Lovelace" 1))
  /\ move 1 "Ada Lovelace" 1 (POST 2)
       (step double_state (0, ReqCancel 0 0 "Ada Lovelace" 1))
     = (MoveRefused, step double_state (0, ReqCancel 0 0 "Ada Lovelace" 1))
  /\ admin_cancel_reservation_refund 1
       (step double_state (0, ReqCancel 0 0 "Ada Lovelace" 1))
     = (AlreadyCanceled, step double_state (0, ReqCancel 0 0 "Ada Lovelace" 1)).
Proof.
  assert (E : cancel 0 0 "Ada Lovelace" 1 double_state
              = (Canceled,
                 step double_state (0, ReqCancel 0 0 "Ada Lovelace" 1))).
  { vm_compute. reflexivity. }
  assert (Hc : exists now now',
             cancel now now' "Ada Lovelace" 1 double_state
             = (Canceled,
                step double_state (0, ReqCancel 0 0 "Ada Lovelace" 1))).
  { exists 0, 0. exact E. }
  destruct (closed_reservation_refused "Ada Lovelace" 1 double_state _
              double_stored (or_introl Hc)) as (Hcancel & Hmove & Hadmin).
  split; [exact double_stored|]. split; [exact E|].
  split; [apply Hcancel|]. split; [apply Hmove|].
  apply Hadmin. exact Hc.
Defined.

(** X15.  Reserving, canceling and moving never touch the member
    directory: credits are taken at attendance only.  So a member with a
    single credit who has reserved one session can reserve another open
    session with a free place as well. *)
Theorem booking_never_debits (now now' : Z) (user : string) (k : Z)
  (method : move_method) (db : store) :
  members (snd (reserve now user k db)) = members db
  /\ members (snd (cancel now now' user k db)) = members db
  /\ members (snd (move now user k method db)) = members db
  /\ (forall db' sid2 s2 now2,
        stored db ->
        reserve now user k db = (Reserved, db') ->
        sid2 <> k ->
        get_session sid2 db = Some s2 ->
        Session.completed s2 || Session.is_past now2 s2 = false ->
        0 < Session.spots_left s2 ->
        existing_booking user sid2 db = None ->
        fst (reserve now2 user sid2 db') = Reserved).
Proof.
  destruct (booking_members now now' user k method db) as (H1 & H2 & H3).
  split_ands; auto.
  intros db' sid2 s2 now2 Hst E Hne Hs2 Hopen Hfree Hnone.
  pose proof (reserve_stored now user k db Hst) as Hst'.
  rewrite E in Hst'. simpl in Hst'.
  apply reserve_inv in E
    as (s & m & Hget & _ & _ & _ & Hm & Hcr & _ & Hdb & _).
  assert (Hs2' : get_session sid2 db' = Some s2).
  { rewrite Hdb, get_session_adjust.
    apply Z.eqb_neq in Hne. rewrite Hne. exact Hs2. }
  assert (Hnone' : existing_booking user sid2 db' = None).
  { rewrite Hdb. unfold existing_booking in *. simpl.
    rewrite (find_app_fresh _ _ _ Hnone).
    unfold is_active_booking. simpl.
    assert ((k =? sid2) = false) as -> by (apply Z.eqb_neq; congruence).
    rewrite andb_false_r. reflexivity. }
  unfold reserve. rewrite Hs2', Hopen.
  assert ((Session.spots_left s2 <=? 0) = false) as ->
    by (apply Z.leb_gt; exact Hfree).
  assert (Hm' : find_member user db' = Some m) by (rewrite Hdb; exact Hm).
  rewrite Hm'.
  assert ((Member.credits m <=? 0) = false) as ->
    by (apply Z.leb_gt; exact Hcr).
  rewrite Hnone'.
  rewrite (reserve_commits user sid2 db' s2 Hst' Hs2' Hfree). reflexivity.
Qed.

Lemma booking_never_debits_witness :
  stored studio_state
  /\ reserve 0 "Ada Lovelace" 1 studio_state
     = (Reserved, step studio_state (0, ReqReserve 0 "Ada Lovelace" 1))
  /\ fst (reserve 0 "Ada Lovelace" 2
            (step studio_state (0, ReqReserve 0 "Ada Lovelace" 1)))
     = Reserved
  /\ members (step studio_state (0, ReqReserve 0 "Ada Lovelace" 1))
     = members studio_state.
Proof.
  assert (E : reserve 0 "Ada Lovelace" 1 studio_state
              = (Reserved, step studio_state (0, ReqReserve 0 "Ada Lovelace" 1))).
  { vm_compute. reflexivity. }
  destruct (booking_never_debits 0 0 "Ada Lovelace" 1 GET studio_state)
    as (Hm & _ & _ & Hnext).
  split; [exact studio_stored|]. split; [exact E|].
  split.
  - apply (Hnext _ 2 (Session.mk 2 10 64800000000 6 6 (Some "Reformer"%string)
                        false) 0 studio_stored E).
    + lia.
    + vm_compute. reflexivity.
    + vm_compute. reflexivity.
    + simpl. lia.
    + vm_compute. reflexivity.
  - rewrite E in Hm. exact Hm.
Defined.



(** X17.  Across a request a session that is kept keeps its key, date,
    time, capacity and notes, gains or loses at most one free place and is
    never reopened once completed; a session that appears is open with
    every place free. *)
Theorem session_life (db : store) (e : Z * request) :
  stored db ->
  (forall k s s',
      get_session k db = Some s ->
      get_session k (step db e) = Some s' ->
      same_slot s s'
      /\ Z.abs (Session.spots_left s' - Session.spots_left s) <= 1
      /\ (Session.completed s = true -> Session.completed s' = true))
  /\ (forall k s',
        get_session k db = None ->
        get_session k (step db e) = Some s' ->
        Session.completed s' = false
        /\ Session.spots_left s' = Session.capacity s').
Proof.
  intros Hst. pose proof (step_advances db e Hst) as Hadv. split.
  - intros k s s' Hs Hs'. specialize (Hadv k s' Hs'). rewrite Hs in Hadv.
    exact Hadv.
  - intros k s' Hs Hs'. specialize (Hadv k s' Hs'). rewrite Hs in Hadv.
    exact Hadv.
Qed.

Lemma session_life_witness :
  stored double_state
  /\ get_session 1 double_state
     = Some (Session.mk 1 10 36000000000 6 5 (Some "Mat"%string) false)
  /\ get_session 1
       (step double_state (late, ReqCancel late late "Ada Lovelace" 2))
     = Some (Session.mk 1 10 36000000000 6 5 (Some "Mat"%string) true)
  /\ same_slot (Session.mk 1 10 36000000000 6 5 (Some "Mat"%string) false)
       (Session.mk 1 10 36000000000 6 5 (Some "Mat"%string) true)
  /\ (forall s',
         get_session 4 (step double_state (0, ReqAdminSessions 12 0 3 None))
         = Some s' ->
         Session.spots_left s' = Session.capacity s').
Proof.
  destruct (session_life double_state
              (late, ReqCancel late late "Ada Lovelace" 2) double_stored)
    as (Hkept & _).
  destruct (session_life double_state (0, ReqAdminSessions 12 0 3 None)
              double_stored) as (_ & Hnew).
  assert (H1 : get_session 1 double_state
               = Some (Session.mk 1 10 36000000000 6 5 (Some "Mat"%string)
                         false)).
  { vm_compute. reflexivity. }
  assert (H2 : get_session 1
                 (step double_state
                    (late, ReqCancel late late "Ada Lovelace" 2))
               = Some (Session.mk 1 10 36000000000 6 5 (Some "Mat"%string)
                         true)).
  { vm_compute. reflexivity. }
  split; [exact double_stored|]. split; [exact H1|]. split; [exact H2|].
  split; [exact (proj1 (Hkept _ _ _ H1 H2))|].
  intros s' Hs'. apply (Hnew 4 s'); [vm_compute; reflexivity | exact Hs'].
Defined.

(** X18.  The figures of the admin dashboard, in every state the
    application reaches: the places taken today lie between zero and
    today's capacity and are at least the active reservations on today's
    sessions; the upcoming count is the length of the sessions page and at
    most the number of sessions; and the active reservations are the sum
    over the sessions of the active reservations on each, which the places
    taken over all sessions cover. *)
Theorem admin_dashboard_figures (today : Z) (db : store) :
  reachable db ->
  let d := admin_dashboard today db in
  let on_today := filter (fun s => Session.date s =? today) (sessions db) in
  0 <= Dashboard.today_fill d <= Dashboard.today_cap d
  /\ sum_of (fun s => booked (Session.id s) db) on_today
     <= Dashboard.today_fill d
  /\ 0 <= Dashboard.upcoming d <= Dashboard.total_sessions d
  /\ Dashboard.upcoming d = Z.of_nat (List.length (list_sessions today db))
  /\ Dashboard.active_res d
     = sum_of (fun s => booked (Session.id s) db) (sessions db)
  /\ Dashboard.active_res d
     <= sum_of (fun s => Session.capacity s - Session.spots_left s)
          (sessions db).
Proof.
  intros Hr d on_today.
  pose proof (reachable_stored db Hr) as Hst.
  pose proof (reachable_accounted db Hr) as [Href Hseats].
  assert (Hin : forall s, In s on_today -> In s (sessions db)).
  { intros s Hs. apply filter_In in Hs. tauto. }
  assert (Hact : Dashboard.active_res d
                 = sum_of (fun s => booked (Session.id s) db) (sessions db)).
  { unfold d, admin_dashboard. cbn [Dashboard.active_res].
    change (Z.of_nat (List.length (filter
              (fun r => status_eqb (Reservation.status_of r) active)
              (reservations db))))
      with (cnt is_active (reservations db)).
    rewrite (cnt_by_key Session.id Reservation.session_id is_active
               (sessions db) (reservations db)).
    - apply sum_of_ext. intros s. reflexivity.
    - apply Hst.
    - intros r Hr' _. apply Href. exact Hr'. }
  assert (Hcover : Dashboard.active_res d
                   <= sum_of (fun s => Session.capacity s
                                       - Session.spots_left s) (sessions db)).
  { rewrite Hact. apply sum_of_le.
    intros s Hs. specialize (Hseats s Hs). lia. }
  unfold d, admin_dashboard in *.
  cbn [Dashboard.today_fill Dashboard.today_cap Dashboard.upcoming
       Dashboard.total_sessions Dashboard.active_res] in *.
  fold on_today.
  split_ands.
  - rewrite <- (sum_of_zero on_today). apply sum_of_le.
    intros s Hs. pose proof (stored_bounds db s Hst (Hin s Hs)). lia.
  - apply sum_of_le.
    intros s Hs. pose proof (stored_bounds db s Hst (Hin s Hs)). lia.
  - apply sum_of_le. intros s Hs. specialize (Hseats s (Hin s Hs)). lia.
  - lia.
  - apply Nat2Z.inj_le. apply length_filter_le.
  - unfold list_sessions.
    rewrite (Permutation_length (order_by_start_perm _)). reflexivity.
  - exact Hact.
  - exact Hcover.
Qed.

Lemma admin_dashboard_figures_witness :
  reachable swept_state
  /\ admin_dashboard 10 swept_state = Dashboard.mk 3 3 0 2 12
  /\ Dashboard.active_res (admin_dashboard 10 swept_state)
     <= sum_of (fun s => Session.capacity s - Session.spots_left s)
          (sessions swept_state)
  /\ Dashboard.upcoming (admin_dashboard 10 double_state)
     = Z.of_nat (List.length (list_sessions 10 double_state)).
Proof.
  split; [exact swept_reachable|].
  split; [vm_compute; reflexivity|].
  split.
  - exact (proj2 (proj2 (proj2 (proj2 (proj2
             (admin_dashboard_figures 10 swept_state swept_reachable)))))).
  - exact (proj1 (proj2 (proj2 (proj2
             (admin_dashboard_figures 10 double_state double_reachable))))).
Defined.

(** X19.  The move page and the move: every session the page lists as a
    candidate is a session of the table other than the one the reservation
    is on, and posting it for an active reservation of the member is not
    answered with a 404 or a full target: the move goes through unless the
    candidate has started, which only a candidate dated today or earlier
    can have.  The page lists the candidates by date and time. *)
Theorem candidates_accepted (today now : Z) (user : string) (rid : Z)
  (db : store) (r : Reservation.t) (c : Session.t) :
  reachable db ->
  get_reservation rid db = Some r ->
  Reservation.user_name r = user ->
  Reservation.status_of r = active ->
  In c (candidates today r db) ->
  get_session (Session.id c) db = Some c
  /\ Session.id c <> Reservation.session_id r
  /\ today <= Session.date c
  /\ fst (move now user rid (POST (Session.id c)) db)
     = (if Session.is_past now c then TargetPast else Moved)
  /\ (Session.is_past now c = true -> 0 <= Session.time c ->
      Session.date c <= Clock.date_of now)
  /\ Sorted (fun a b => starts_before a b = true) (candidates today r db).
Proof.
  intros Hr Hget Hu Ha Hc.
  pose proof (reachable_stored db Hr) as Hst.
  unfold candidates in Hc. apply (proj1 (order_by_start_in _ _)) in Hc.
  apply filter_In in Hc as [Hc Hfree]. apply filter_In in Hc as [Hc Hother].
  apply filter_In in Hc as [Hc Hdate].
  apply Z.ltb_lt in Hfree. apply negb_true_iff, Z.eqb_neq in Hother.
  apply Z.leb_le in Hdate.
  assert (Hs : get_session (Session.id c) db = Some c).
  { unfold get_session. apply (find_key_in Session.id); [apply Hst | exact Hc]. }
  split_ands; auto.
  - destruct (Session.is_past now c) eqn:Ep.
    + unfold move. rewrite Hget, Hu, String.eqb_refl, Ha. simpl.
      rewrite Hs, Ep. reflexivity.
    + apply (move_goes_through now user rid (Session.id c) db r c); auto.
  - intros Hp Ht. unfold Session.is_past, Clock.combine in Hp.
    apply Z.ltb_lt in Hp. unfold Clock.date_of.
    apply Z.div_le_lower_bound; [reflexivity|]. unfold Clock.day in *. lia.
  - apply order_by_start_sorted.
Qed.

Lemma candidates_accepted_witness :
  reachable double_state
  /\ candidates 10 (Reservation.mk 1 "Ada Lovelace" 1 active) double_state
     = [Session.mk 2 10 64800000000 6 5 (Some "Reformer"%string) false]
  /\ fst (move 0 "Ada Lovelace" 1 (POST 2) double_state) = Moved
  /\ fst (move late "Ada Lovelace" 1 (POST 2) double_state) = TargetPast.
Proof.
  assert (Hin : In (Session.mk 2 10 64800000000 6 5 (Some "Reformer"%string)
                      false)
                  (candidates 10 (Reservation.mk 1 "Ada Lovelace" 1 active)
                     double_state)).
  { vm_compute. left. reflexivity. }
  split; [exact double_reachable|].
  split; [vm_compute; reflexivity|].
  split.
  - exact (proj1 (proj2 (proj2 (proj2
             (candidates_accepted 10 0 "Ada Lovelace" 1 double_state _ _
                double_reachable ltac:(reflexivity) ltac:(reflexivity)
                ltac:(reflexivity) Hin))))).
  - exact (proj1 (proj2 (proj2 (proj2
             (candidates_accepted 10 late "Ada Lovelace" 1 double_state _ _
                double_reachable ltac:(reflexivity) ltac:(reflexivity)
                ltac:(reflexivity) Hin))))).
Defined.

(** X20.  The sessions page lists exactly the sessions dated today or
    later, each once, by date and then by time. *)
Theorem list_sessions_page (today : Z) (db : store) :
  stored db ->
  (forall s, In s (list_sessions today db)
             <-> In s (sessions db) /\ today <= Session.date s)
  /\ NoDup (map Session.id (list_sessions today db))
  /\ Sorted (fun a b => starts_before a b = true) (list_sessions today db)
  /\ (forall a b l1 l2,
        list_sessions today db = l1 ++ a :: b :: l2 ->
        Session.date a < Session.date b
        \/ (Session.date a = Session.date b
            /\ Session.time a <= Session.time b)).
Proof.
  intros (_ & N1 & _). unfold list_sessions.
  set (l := filter (fun s => today <=? Session.date s) (sessions db)).
  assert (Hsorted : Sorted (fun a b => starts_before a b = true)
                      (order_by_start l))
    by apply order_by_start_sorted.
  split_ands.
  - intros s. rewrite order_by_start_in. unfold l. rewrite filter_In.
    rewrite Z.leb_le. reflexivity.
  - apply (Permutation_NoDup
             (l := map Session.id l)).
    + apply Permutation_map. symmetry. apply order_by_start_perm.
    + unfold l. apply nodup_map_filter. exact N1.
  - exact Hsorted.
  - intros a b l1 l2 E. rewrite E in Hsorted. clear E.
    induction l1 as [|x l1 IH]; simpl in Hsorted.
    + inversion Hsorted as [|? ? _ Hh]; subst.
      inversion Hh as [|? ? Hab]; subst.
      unfold starts_before in Hab. apply orb_true_iff in Hab as [Hab|Hab].
      * left. apply Z.ltb_lt. exact Hab.
      * right. apply andb_true_iff in Hab as [H1 H2].
        apply Z.eqb_eq in H1. apply Z.leb_le in H2. auto.
    + apply IH. inversion Hsorted; assumption.
Qed.

Lemma list_sessions_page_witness :
  stored studio_state
  /\ list_sessions 10 studio_state
     = [Session.mk 1 10 36000000000 6 6 (Some "Mat"%string) false;
        Session.mk 2 10 64800000000 6 6 (Some "Reformer"%string) false;
        Session.mk 3 10 72000000000 0 0 None false]
  /\ list_sessions 11 studio_state = []
  /\ NoDup (map Session.id (list_sessions 10 studio_state)).
Proof.
  split; [exact studio_stored|].
  split; [vm_compute; reflexivity|].
  split; [vm_compute; reflexivity|].
  exact (proj1 (proj2 (list_sessions_page 10 studio_state studio_stored))).
Defined.

(** X21.  The seed script: on a store whose constraints hold it appends
    the three demo sessions under three consecutive fresh keys, every place
    free, and touches nothing else; the store stays in order, the sessions
    page of that day shows the three, and today's capacity on the dashboard
    grows by twelve.  Nothing guards against a second run: it appends the
    three sessions again.  On a store that breaks a constraint the commit
    fails and nothing is stored. *)
Theorem seed_effects (today : Z) (db : store) :
  let n := next_id (map Session.id (sessions db)) in
  let demo :=
    [Session.mk n today 36000000000 6 6 (Some "Mat"%string) false;
     Session.mk (n + 1) today 64800000000 6 6 (Some "Reformer"%string) false;
     Session.mk (n + 2) (today + 1) 36000000000 8 8 (Some "Mat"%string)
       false] in
  (constraints_ok db = false -> seed today db = None)
  /\ (stored db ->
      exists db',
        seed today db = Some db'
        /\ sessions db' = sessions db ++ demo
        /\ reservations db' = reservations db
        /\ members db' = members db
        /\ stored db'
        /\ (forall s, In s demo -> In s (list_sessions today db'))
        /\ Dashboard.today_cap (admin_dashboard today db')
           = Dashboard.today_cap (admin_dashboard today db) + 12
        /\ exists db'',
             seed today db' = Some db''
             /\ List.length (sessions db'')
                = (List.length (sessions db) + 6)%nat).
Proof.
  intros n demo.
  assert (Hrun : forall w, constraints_ok w = true ->
            seed today w
            = Some (mkStore
                      (sessions w
                       ++ [Session.mk (next_id (map Session.id (sessions w)))
                             today 36000000000 6 6 (Some "Mat"%string) false;
                           Session.mk
                             (next_id (map Session.id (sessions w)) + 1)
                             today 64800000000 6 6 (Some "Reformer"%string)
                             false;
                           Session.mk
                             (next_id (map Session.id (sessions w)) + 2)
                             (today + 1) 36000000000 8 8 (Some "Mat"%string)
                             false])
                      (reservations w) (members w))).
  { intros w Hw. unfold seed, commit.
    rewrite !constraints_ok_add, Hw.
    cbn [andb Z.leb Z.compare]. unfold add_session.
    cbn [sessions reservations members]. rewrite !map_app.
    cbn [map Session.id].
    rewrite (next_id_app (_ ++ _)), !next_id_next.
    rewrite Z.max_r by lia.
    rewrite <- !app_assoc. cbn [app].
    replace (next_id (map Session.id (sessions w)) + 1 + 1)
      with (next_id (map Session.id (sessions w)) + 2) by lia.
    reflexivity. }
  split.
  - intros Hbad. unfold seed, commit.
    rewrite !constraints_ok_add, Hbad. reflexivity.
  - intros Hst. pose proof Hst as (Hok & _).
    set (db' := mkStore (sessions db ++ demo) (reservations db) (members db)).
    assert (Hst' : stored db').
    { pose proof (stored_add_session (today + 1) 36000000000 8
                    (Some "Mat"%string) _
                    (stored_add_session today 64800000000 6
                       (Some "Reformer"%string) _
                       (stored_add_session today 36000000000 6
                          (Some "Mat"%string) db Hst ltac:(lia))
                       ltac:(lia)) ltac:(lia)) as H.
      pose proof (Hrun db Hok) as Hs. unfold seed, commit in Hs.
      rewrite !constraints_ok_add, Hok in Hs. simpl in Hs.
      inversion Hs as [Hs']. unfold db', demo, n. rewrite <- Hs'. exact H. }
    exists db'. split_ands.
    + apply (Hrun db Hok).
    + reflexivity.
    + reflexivity.
    + reflexivity.
    + exact Hst'.
    + intros s Hs. unfold list_sessions. apply order_by_start_in.
      apply filter_In. split.
      * simpl. apply in_or_app. right. exact Hs.
      * apply Z.leb_le. simpl in Hs.
        destruct Hs as [<-|[<-|[<-|[]]]]; simpl; lia.
    + unfold admin_dashboard. cbn [Dashboard.today_cap]. simpl sessions.
      rewrite filter_app. unfold demo. cbn [filter Session.date].
      rewrite Z.eqb_refl.
      assert ((today + 1 =? today) = false) as -> by (apply Z.eqb_neq; lia).
      set (old := filter _ (sessions db)).
      clearbody old. induction old as [|a old IH]; simpl in *; lia.
    + eexists. split; [apply (Hrun db'); apply Hst'|].
      simpl. rewrite !length_app. simpl. lia.
Qed.

Lemma seed_effects_witness :
  stored empty_store
  /\ seed 10 empty_store
     = Some (mkStore
               [Session.mk 1 10 36000000000 6 6 (Some "Mat"%string) false;
                Session.mk 2 10 64800000000 6 6 (Some "Reformer"%string) false;
                Session.mk 3 11 36000000000 8 8 (Some "Mat"%string) false]
               [] [])
  /\ Dashboard.today_cap
       (admin_dashboard 10
          (mkStore
             [Session.mk 1 10 36000000000 6 6 (Some "Mat"%string) false;
              Session.mk 2 10 64800000000 6 6 (Some "Reformer"%string) false;
              Session.mk 3 11 36000000000 8 8 (Some "Mat"%string) false]
             [] []))
     = 12.
Proof.
  destruct (proj2 (seed_effects 10 empty_store) empty_stored)
    as (db' & Hrun & Hses & Hres & Hmem & _ & _ & Hcap & _).
  assert (Hdb : db'
                = mkStore
                    [Session.mk 1 10 36000000000 6 6 (Some "Mat"%string) false;
                     Session.mk 2 10 64800000000 6 6 (Some "Reformer"%string)
                       false;
                     Session.mk 3 11 36000000000 8 8 (Some "Mat"%string) false]
                    [] []).
  { destruct db'; simpl in *. rewrite Hses, Hres, Hmem. reflexivity. }
  rewrite Hdb in *.
  split; [exact empty_stored|]. split; [exact Hrun|].
  rewrite Hcap. reflexivity.
Defined.
